(** * Hub Fuel Counter: the counting core, embedded and verified

    Shallow embedding of [lib/fuel_counter/fuel_counter.h], of
    [fuel_counter.cpp] and of the parts of [src/main.cpp] that drive
    them ([updateLane], the reset branch of [onWsMessage]).

    Fixed-width unsigned integers are integers in [Z] with the wrap-around
    written out ([wrap16], [wrap32]); the lane array is a list addressed by
    index; the sensor reading, its timeout flag and [millis()] are inputs
    of the step they are read in. *)

From Stdlib Require Import ZArith Lia Bool List.
From stdpp Require Import base list.

Local Open Scope Z_scope.

(** ** Machine integers *)

Definition wrap16 (z : Z) : Z := z mod 65536.
Definition wrap32 (z : Z) : Z := z mod 4294967296.

Definition is_u16 (z : Z) : Prop := 0 <= z < 65536.
Definition is_u32 (z : Z) : Prop := 0 <= z < 4294967296.

(** ** fuel_counter.h *)

(** [static const uint8_t FC_NUM_LANES = 4;] *)
Definition FC_NUM_LANES : nat := 4%nat.

(** [enum class LaneState : uint8_t { IDLE, BALL_PRESENT, LOCKOUT };] *)
Inductive LaneState : Set := IDLE | BALL_PRESENT | LOCKOUT.

(** The edges of the state machine drawn in the header:
    IDLE --> BALL_PRESENT --> LOCKOUT --> IDLE. *)
Definition graph_edge (a b : LaneState) : bool :=
  match a, b with
  | IDLE, BALL_PRESENT | BALL_PRESENT, LOCKOUT | LOCKOUT, IDLE => true
  | _, _ => false
  end.

(** [struct Lane]: the three distances and [lastDistance_mm] are
    [uint16_t], [count] and [lockoutStart] are [uint32_t]. *)
Record Lane : Set := mkLane {
  baseline_mm     : Z;
  threshold_mm    : Z;
  clearThresh_mm  : Z;
  count           : Z;
  state           : LaneState;
  lockoutStart    : Z;
  sensorOk        : bool;
  lastDistance_mm : Z
}.

(** The member initialisers of [struct Lane]. *)
Definition Lane_default : Lane :=
  {| baseline_mm := 0; threshold_mm := 0; clearThresh_mm := 0; count := 0;
     state := IDLE; lockoutStart := 0; sensorOk := false;
     lastDistance_mm := 0 |}.

(** Assignments to one member. *)
Definition set_baseline_mm (v : Z) (l : Lane) : Lane :=
  mkLane v (threshold_mm l) (clearThresh_mm l) (count l) (state l)
         (lockoutStart l) (sensorOk l) (lastDistance_mm l).
Definition set_threshold_mm (v : Z) (l : Lane) : Lane :=
  mkLane (baseline_mm l) v (clearThresh_mm l) (count l) (state l)
         (lockoutStart l) (sensorOk l) (lastDistance_mm l).
Definition set_clearThresh_mm (v : Z) (l : Lane) : Lane :=
  mkLane (baseline_mm l) (threshold_mm l) v (count l) (state l)
         (lockoutStart l) (sensorOk l) (lastDistance_mm l).
Definition set_count (v : Z) (l : Lane) : Lane :=
  mkLane (baseline_mm l) (threshold_mm l) (clearThresh_mm l) v (state l)
         (lockoutStart l) (sensorOk l) (lastDistance_mm l).
Definition set_state (v : LaneState) (l : Lane) : Lane :=
  mkLane (baseline_mm l) (threshold_mm l) (clearThresh_mm l) (count l) v
         (lockoutStart l) (sensorOk l) (lastDistance_mm l).
Definition set_lockoutStart (v : Z) (l : Lane) : Lane :=
  mkLane (baseline_mm l) (threshold_mm l) (clearThresh_mm l) (count l)
         (state l) v (sensorOk l) (lastDistance_mm l).
Definition set_sensorOk (v : bool) (l : Lane) : Lane :=
  mkLane (baseline_mm l) (threshold_mm l) (clearThresh_mm l) (count l)
         (state l) (lockoutStart l) v (lastDistance_mm l).
Definition set_lastDistance_mm (v : Z) (l : Lane) : Lane :=
  mkLane (baseline_mm l) (threshold_mm l) (clearThresh_mm l) (count l)
         (state l) (lockoutStart l) (sensorOk l) v.

(** ** fuel_counter.cpp *)

(** [bool processLaneReading(Lane& lane, uint16_t distance_mm,
                             uint32_t now_ms, uint32_t lockout_ms)].
    The lane is passed by reference: the result pairs the returned flag
    with the lane as the call leaves it.  [now_ms - lane.lockoutStart] is
    a [uint32_t] subtraction, [lane.count++] a [uint32_t] increment. *)
Definition processLaneReading (lane : Lane) (distance_mm now_ms lockout_ms : Z)
  : bool * Lane :=
  if negb (sensorOk lane) then (false, lane)
  else
    let lane := set_lastDistance_mm distance_mm lane in
    match state lane with
    | IDLE =>
        let lane :=
          if distance_mm <? threshold_mm lane
          then set_state BALL_PRESENT lane else lane in
        (false, lane)
    | BALL_PRESENT =>
        if distance_mm >? clearThresh_mm lane then
          let lane := set_count (wrap32 (count lane + 1)) lane in
          let lane := set_state LOCKOUT lane in
          let lane := set_lockoutStart now_ms lane in
          (true, lane)
        else (false, lane)
    | LOCKOUT =>
        let lane :=
          if wrap32 (now_ms - lockoutStart lane) >=? lockout_ms
          then set_state IDLE lane else lane in
        (false, lane)
    end.

(** [void calculateThresholds(Lane& lane, uint16_t baseline_mm,
        uint16_t detection_delta_mm, uint16_t clear_hysteresis_mm)].
    The operands are promoted to [int]; the assignment to a [uint16_t]
    member reduces the result modulo 2^16. *)
Definition calculateThresholds (lane : Lane)
    (baseline detection_delta_mm clear_hysteresis_mm : Z) : Lane :=
  let lane := set_baseline_mm baseline lane in
  let lane := set_threshold_mm (wrap16 (baseline - detection_delta_mm)) lane in
  set_clearThresh_mm (wrap16 (threshold_mm lane + clear_hysteresis_mm)) lane.

(** The body of the loop of [resetLanes]. *)
Definition reset_lane (l : Lane) : Lane := set_state IDLE (set_count 0 l).

(** The loop [for (uint8_t i = 0; i < num_lanes; i++)] of [resetLanes],
    entered at index [i] with [todo = num_lanes - i] iterations left
    ([i] stays below [num_lanes <= 255], so [i++] never wraps).  An index
    outside the array is undefined behaviour in C++: [None]. *)
Fixpoint resetLanes_loop (todo : nat) (i : nat) (lanes : list Lane)
  : option (list Lane) :=
  match todo with
  | O => Some lanes
  | S todo' =>
      match lanes !! i with
      | None => None
      | Some l => resetLanes_loop todo' (S i) (<[i := reset_lane l]> lanes)
      end
  end.

(** [void resetLanes(Lane lanes[], uint8_t num_lanes, uint32_t& totalCount)]:
    the result is the array and the total as the call leaves them. *)
Definition resetLanes (lanes : list Lane) (num_lanes : nat) (totalCount : Z)
  : option (list Lane * Z) :=
  match resetLanes_loop num_lanes 0 lanes with
  | None => None
  | Some lanes' => Some (lanes', 0)
  end.

(** ** Runs of one lane

    A reading is a pair (distance, timestamp).  [lane_after] is the lane
    after a sequence of [processLaneReading] calls, [counted_flags] the
    flags these calls return, in order. *)

Section LaneRun.
Variable lockout_ms : Z.

Fixpoint lane_after (lane : Lane) (readings : list (Z * Z)) : Lane :=
  match readings with
  | [] => lane
  | (d, t) :: rest =>
      lane_after (snd (processLaneReading lane d t lockout_ms)) rest
  end.

Fixpoint counted_flags (lane : Lane) (readings : list (Z * Z)) : list bool :=
  match readings with
  | [] => []
  | (d, t) :: rest =>
      fst (processLaneReading lane d t lockout_ms)
      :: counted_flags (snd (processLaneReading lane d t lockout_ms)) rest
  end.

End LaneRun.

(** Timestamps are [uint32_t] values that never go back. *)
Fixpoint nondecreasing_from (t0 : Z) (ts : list Z) : bool :=
  match ts with
  | [] => true
  | t :: rest => (t0 <=? t) && nondecreasing_from t rest
  end.

Definition timestamps_ok (readings : list (Z * Z)) : bool :=
  nondecreasing_from 0 (map snd readings)
  && forallb (fun t => t <? 4294967296) (map snd readings).

(** ** main.cpp *)

Definition NUM_LANES : nat := FC_NUM_LANES.
Definition DETECTION_DELTA_MM : Z := 80.
Definition CLEAR_HYSTERESIS_MM : Z := 30.
Definition LOCKOUT_MS : Z := 60.

(** The globals the counting logic reads and writes:
    [Lane lanes[NUM_LANES]; uint32_t totalCount; bool countsChanged]. *)
Record System : Type := mkSystem {
  lanes         : list Lane;
  totalCount    : Z;
  countsChanged : bool
}.

Definition System_wf (s : System) : Prop := length (lanes s) = NUM_LANES.

(** [void updateLane(uint8_t ch)].  What the call reads from the sensor
    of the lane ([readRangeContinuousMillimeters], [timeoutOccurred]) and
    from the clock ([millis]) are arguments.  The serial log is not
    modelled.  An index outside [lanes] is undefined behaviour: [None]. *)
Definition updateLane (ch : nat) (dist : Z) (timeoutOccurred : bool)
    (millis : Z) (s : System) : option System :=
  match lanes s !! ch with
  | None => None
  | Some lane =>
      if negb (sensorOk lane) then Some s
      else if timeoutOccurred then Some s
      else
        let '(counted, lane') :=
          processLaneReading lane dist millis LOCKOUT_MS in
        let lanes' := <[ch := lane']> (lanes s) in
        if counted
        then Some (mkSystem lanes' (wrap32 (totalCount s + 1)) true)
        else Some (mkSystem lanes' (totalCount s) (countsChanged s))
  end.

(** The reset branch of [onWsMessage]:
    [resetLanes(lanes, NUM_LANES, totalCount); countsChanged = true;]. *)
Definition onWsMessage_reset (s : System) : option System :=
  match resetLanes (lanes s) NUM_LANES (totalCount s) with
  | None => None
  | Some (lanes', total') => Some (mkSystem lanes' total' true)
  end.

(** What happens to the counters after [setup]: a lane is polled, or a
    client sends the reset command. *)
Inductive Event : Type :=
| Poll (ch : nat) (dist : Z) (timeoutOccurred : bool) (millis : Z)
| ResetCommand.

Definition step (e : Event) (s : System) : option System :=
  match e with
  | Poll ch dist tmo now => updateLane ch dist tmo now s
  | ResetCommand => onWsMessage_reset s
  end.

Fixpoint run (evs : list Event) (s : System) : option System :=
  match evs with
  | [] => Some s
  | e :: rest =>
      match step e s with
      | None => None
      | Some s' => run rest s'
      end
  end.

Definition Event_in_bounds (e : Event) : bool :=
  match e with
  | Poll ch _ _ _ => Nat.ltb ch NUM_LANES
  | ResetCommand => true
  end.

(** The sum of the lane counts, as an integer (no wrap-around). *)
Definition sum_counts (ls : list Lane) : Z :=
  foldr (fun l acc => count l + acc) 0 ls.

(** The total is the sum of the lane counts reduced modulo 2^32. *)
Definition total_matches (s : System) : Prop :=
  totalCount s = wrap32 (sum_counts (lanes s)).

(** A lane as [initSensors] and [calibrateBaselines] leave it when the
    sensor answers and the empty lane measures 500 mm. *)
Definition calibrated_lane : Lane :=
  calculateThresholds (set_sensorOk true Lane_default)
    500 DETECTION_DELTA_MM CLEAR_HYSTERESIS_MM.

Definition fresh_system : System :=
  mkSystem (replicate NUM_LANES calibrated_lane) 0 true.

(** One ball through lane [ch], first seen at [t]: it enters, it has
    left 30 ms later (counted), and the lockout has expired at the
    reading 60 ms after that.  The clock is [millis()], a 32-bit
    counter. *)
Definition ball_pass (ch : nat) (t : Z) : list Event :=
  [Poll ch 400 false t;
   Poll ch 460 false (wrap32 (t + 30));
   Poll ch 600 false (wrap32 (t + 90))].

(** [n] balls through lane [ch], one every 90 ms from [t] on. *)
Fixpoint ball_passes (n : nat) (ch : nat) (t : Z) : list Event :=
  match n with
  | O => []
  | S n' => ball_pass ch t ++ ball_passes n' ch (wrap32 (t + 90))
  end.

(** 2^32 - 1 balls through lane 0, then one ball through lane 1. *)
Definition overflow_trace : list Event :=
  ball_passes (Z.to_nat 4294967295) 0 1000 ++ ball_pass 1 5000.

(** ** main.cpp: start-up, the polling loop, the page

    [static const uint8_t CALIB_SAMPLES = 20;]
    [static const uint8_t TCA9548A_ADDR = 0x70;]
    [static const uint32_t BROADCAST_MIN_INTERVAL_MS = 50;] *)
Definition CALIB_SAMPLES : nat := 20%nat.
Definition TCA9548A_ADDR : Z := 112.
Definition BROADCAST_MIN_INTERVAL_MS : Z := 50.

Definition wrap8 (z : Z) : Z := z mod 256.

(** [void muxSelect(uint8_t channel)]: nothing is sent for a channel
    above 7; otherwise one I2C transmission to the multiplexer, given
    here by its address and the byte written, [1 << channel] as
    [Wire.write] stores it in its 8-bit buffer. *)
Definition muxSelect (channel : Z) : option (Z * Z) :=
  if channel >? 7 then None
  else Some (TCA9548A_ADDR, wrap8 (Z.shiftl 1 channel)).

(** A loop [for (uint8_t ch = 0; ch < NUM_LANES; ch++)] over the global
    array whose body writes members of [lanes[ch]] only, entered at
    [ch] with [todo] iterations left. *)
Fixpoint for_lanes (body : nat -> Lane -> Lane) (todo ch : nat)
    (ls : list Lane) : option (list Lane) :=
  match todo with
  | O => Some ls
  | S todo' =>
      match ls !! ch with
      | None => None
      | Some lane => for_lanes body todo' (S ch) (<[ch := body ch lane]> ls)
      end
  end.

(** The body of the loop of [initSensors]; [init_ok] is what
    [tof[ch].init()] returns. *)
Definition initSensors_lane (init_ok : bool) (lane : Lane) : Lane :=
  if negb init_ok then set_sensorOk false lane
  else set_sensorOk true lane.

(** [void initSensors()]. *)
Definition initSensors (init : nat -> bool) (s : System) : option System :=
  match for_lanes (fun ch => initSensors_lane (init ch)) NUM_LANES 0 (lanes s)
  with
  | None => None
  | Some ls => Some (mkSystem ls (totalCount s) (countsChanged s))
  end.

(** The sample loop of [calibrateBaselines]:
    [for (uint8_t s = 0; s < CALIB_SAMPLES; s++)], entered at [s] with
    [todo] iterations left.  [read s] is the [s]-th reading of the lane
    with its timeout flag; [sum] is a [uint32_t], [good] a [uint8_t]. *)
Fixpoint calib_samples (todo s : nat) (read : nat -> Z * bool)
    (sum good : Z) : Z * Z :=
  match todo with
  | O => (sum, good)
  | S todo' =>
      let '(d, timeoutOccurred) := read s in
      if negb timeoutOccurred && (d <? 8000)
      then calib_samples todo' (S s) read (wrap32 (sum + d)) (wrap8 (good + 1))
      else calib_samples todo' (S s) read sum good
  end.

(** The body of the lane loop of [calibrateBaselines].  [sum / good] is
    a [uint32_t] division whose result is passed as a [uint16_t]. *)
Definition calibrate_lane (read : nat -> Z * bool) (lane : Lane) : Lane :=
  if negb (sensorOk lane) then lane
  else
    let '(sum, good) := calib_samples CALIB_SAMPLES 0 read 0 0 in
    if good >? 0
    then calculateThresholds lane (wrap16 (sum / good))
           DETECTION_DELTA_MM CLEAR_HYSTERESIS_MM
    else set_sensorOk false lane.

(** [void calibrateBaselines()]; [sensor ch s] is the [s]-th reading of
    lane [ch] during calibration. *)
Definition calibrateBaselines (sensor : nat -> nat -> Z * bool) (s : System)
  : option System :=
  match for_lanes (fun ch => calibrate_lane (sensor ch)) NUM_LANES 0 (lanes s)
  with
  | None => None
  | Some ls => Some (mkSystem ls (totalCount s) (countsChanged s))
  end.

(** The globals as their initialisers leave them. *)
Definition power_on : System :=
  mkSystem (replicate NUM_LANES Lane_default) 0 true.

(** Step 4 of [setup]: [initSensors(); calibrateBaselines();]. *)
Definition setup_sensors (init : nat -> bool) (sensor : nat -> nat -> Z * bool)
    (s : System) : option System :=
  match initSensors init s with
  | None => None
  | Some s' => calibrateBaselines sensor s'
  end.

(** The readings of a calibration that pass the test
    [!timeoutOccurred && d < 8000], in order: those among the readings
    [s], ..., [s + todo - 1], and those among all [CALIB_SAMPLES]. *)
Definition sample_valid (r : Z * bool) : bool :=
  negb (snd r) && (fst r <? 8000).

Definition valid_from (read : nat -> Z * bool) (s todo : nat) : list Z :=
  map fst (List.filter sample_valid (map read (seq s todo))).

Definition valid_readings (read : nat -> Z * bool) : list Z :=
  valid_from read 0 CALIB_SAMPLES.

Definition sum_Z (zs : list Z) : Z := foldr Z.add 0 zs.

(** The polling loop of [loop]:
    [for (uint8_t ch = 0; ch < NUM_LANES; ch++) updateLane(ch);].
    [input ch] is what the call for lane [ch] reads: distance, timeout
    flag, clock. *)
Fixpoint poll_lanes (todo ch : nat) (input : nat -> Z * bool * Z)
    (s : System) : option System :=
  match todo with
  | O => Some s
  | S todo' =>
      let '(dist, timeoutOccurred, millis) := input ch in
      match updateLane ch dist timeoutOccurred millis s with
      | None => None
      | Some s' => poll_lanes todo' (S ch) input s'
      end
  end.

(** What one poll with input [r] makes of the lane it finds, and
    whether it counts. *)
Definition lane_polled (r : Z * bool * Z) (lane : Lane) : Lane :=
  let '(dist, timeoutOccurred, millis) := r in
  if timeoutOccurred then lane
  else snd (processLaneReading lane dist millis LOCKOUT_MS).

Definition poll_counts (input : nat -> Z * bool * Z) (s : System) (ch : nat)
  : bool :=
  match lanes s !! ch with
  | None => false
  | Some lane =>
      let '(dist, timeoutOccurred, millis) := input ch in
      negb timeoutOccurred
      && fst (processLaneReading lane dist millis LOCKOUT_MS)
  end.

(** The counters together with [uint32_t lastBroadcastMs]. *)
Record Board : Type := mkBoard {
  sys             : System;
  lastBroadcastMs : Z
}.

(** The broadcast part of [loop].  [now] is [millis()], [clients] is
    [ws && ws->connectedClients() > 0]; the flag returned tells whether
    [broadcastTXT] was called. *)
Definition broadcast_step (now : Z) (clients : bool) (b : Board)
  : Board * bool :=
  if countsChanged (sys b) then
    if wrap32 (now - lastBroadcastMs b) >=? BROADCAST_MIN_INTERVAL_MS then
      (mkBoard (mkSystem (lanes (sys b)) (totalCount (sys b)) false) now,
       clients)
    else (b, false)
  else (b, false).


(** Successive passes through the broadcast part.  Between two passes
    the polling and the WebSocket handlers may have changed the
    counters in any way, so each pass comes with the counters it finds;
    [lastBroadcastMs] is written by [loop] only and is threaded. *)
Fixpoint broadcasts (last : Z) (passes : list (System * Z * bool))
  : list bool :=
  match passes with
  | [] => []
  | (s, now, clients) :: rest =>
      snd (broadcast_step now clients (mkBoard s last))
      :: broadcasts
           (lastBroadcastMs (fst (broadcast_step now clients (mkBoard s last))))
           rest
  end.

(** The streaming loop of [handleRoot]:
    [for (uint16_t i = 0; i < len; i += chunkSize)] with
    [chunkSize = 256].  [page] holds the characters of [INDEX_HTML]
    before its terminating NUL; each iteration copies
    [n = min(chunkSize, len - i)] of them from offset [i], terminates
    the buffer and prints it.  The result lists the chunks printed;
    [None]: the loop is still running when the fuel is spent. *)
Fixpoint handleRoot_stream (fuel : nat) (page : list Byte.byte) (len i : Z)
  : option (list (list Byte.byte)) :=
  match fuel with
  | O => None
  | S fuel' =>
      if i <? len then
        let n := Z.min 256 (wrap16 (len - i)) in
        match handleRoot_stream fuel' page len (wrap16 (i + 256)) with
        | None => None
        | Some chunks =>
            Some (take (Z.to_nat n) (drop (Z.to_nat i) page) :: chunks)
        end
      else Some []
  end.

(** The body of the response of [handleRoot]:
    [uint16_t len = strlen_P(INDEX_HTML);] and the loop. *)
Definition handleRoot_body (fuel : nat) (page : list Byte.byte)
  : option (list (list Byte.byte)) :=
  handleRoot_stream fuel page (wrap16 (Z.of_nat (length page))) 0.

(** What calibration and sensor start-up decide for a lane. *)
Definition calibration_of (l : Lane) : Z * Z * Z * bool :=
  (baseline_mm l, threshold_mm l, clearThresh_mm l, sensorOk l).

(** The number of calls that returned true. *)
Fixpoint counted_events (flags : list bool) : Z :=
  match flags with
  | [] => 0
  | f :: rest => (if f then 1 else 0) + counted_events rest
  end.

(** Unfolds a call on a lane given by its fields and decides the
    comparisons of the switch. *)
Ltac lane_call :=
  unfold processLaneReading, set_lockoutStart, set_state, set_count,
    set_lastDistance_mm; simpl;
  rewrite ?Z.gtb_ltb, ?Z.geb_leb;
  repeat match goal with
    | |- context [?a <? ?b] => destruct (Z.ltb_spec a b)
    | |- context [?a <=? ?b] => destruct (Z.leb_spec a b)
    end; simpl.

(** * Properties *)

Example process_idle_enter :
  processLaneReading
    (mkLane 500 420 450 0 IDLE 0 true 0) 400 20 60
  = (false, mkLane 500 420 450 0 BALL_PRESENT 0 true 400).
Proof. reflexivity. Qed.

Example calibrated_lane_eq :
  calibrated_lane = mkLane 500 420 450 0 IDLE 0 true 0.
Proof. reflexivity. Qed.

Example spec_sequence :
  counted_flags 60 (mkLane 500 420 450 0 IDLE 0 true 0)
    [(600, 0); (600, 10); (400, 20); (400, 30); (460, 40); (460, 100)]
  = [false; false; false; false; true; false]
  /\ lane_after 60 (mkLane 500 420 450 0 IDLE 0 true 0)
    [(600, 0); (600, 10); (400, 20); (400, 30); (460, 40); (460, 100)]
  = mkLane 500 420 450 1 IDLE 40 true 460.
Proof. split; reflexivity. Qed.

(** ** One call of [processLaneReading] *)

(** The thresholds, the baseline and the health flag are read only. *)
Lemma processLaneReading_frame lane d now lo :
  let lane' := snd (processLaneReading lane d now lo) in
  baseline_mm lane' = baseline_mm lane /\
  threshold_mm lane' = threshold_mm lane /\
  clearThresh_mm lane' = clearThresh_mm lane /\
  sensorOk lane' = sensorOk lane.
Proof.
  destruct lane as [b th cl c st ls ok ld]; destruct ok, st; lane_call; auto.
Qed.

(** A call that counts was made in BALL_PRESENT, on a healthy lane, with
    a distance above the clear threshold; it leaves the lane in LOCKOUT
    with the lockout started at the timestamp of the call. *)
Lemma counted_inv lane d now lo :
  fst (processLaneReading lane d now lo) = true ->
  sensorOk lane = true /\ state lane = BALL_PRESENT /\
  clearThresh_mm lane < d /\
  state (snd (processLaneReading lane d now lo)) = LOCKOUT /\
  lockoutStart (snd (processLaneReading lane d now lo)) = now.
Proof.
  destruct lane as [b th cl c st ls ok ld]; destruct ok, st; lane_call;
    intros; try discriminate; auto.
Qed.

(** C1 as stated fails: a healthy lane in LOCKOUT, which is neither
    "IDLE with a distance below the detect threshold" nor "BALL_PRESENT
    with a distance above the clear threshold", changes state when the
    lockout has expired. *)
Lemma lockout_expiry_changes_state :
  let lane := mkLane 500 420 450 1 LOCKOUT 40 true 460 in
  sensorOk lane = true /\
  ~ (state lane = IDLE /\ 460 < threshold_mm lane) /\
  ~ (state lane = BALL_PRESENT /\ 460 > clearThresh_mm lane) /\
  state (snd (processLaneReading lane 460 100 60)) <> state lane.
Proof.
  simpl. repeat split; try (intros [? ?]; discriminate). discriminate.
Qed.

(** C1 (amended): the transition table of one call on a healthy lane.
    IDLE goes to BALL_PRESENT on a distance strictly below the detect
    threshold, without a count; BALL_PRESENT goes to LOCKOUT on a
    distance strictly above the clear threshold, incrementing the count
    as a 32-bit unsigned value, recording the timestamp and returning
    true, and no other call returns true; LOCKOUT goes to IDLE exactly
    when the 32-bit difference between the timestamp and the lockout
    start has reached the lockout duration, whatever the distance; in
    all remaining cases, ties included, state and count are unchanged
    and the call returns false. *)
Theorem processLaneReading_transition_table lane d now lo :
  sensorOk lane = true ->
  let r := processLaneReading lane d now lo in
  (state lane = IDLE -> d < threshold_mm lane ->
     state (snd r) = BALL_PRESENT /\ count (snd r) = count lane /\
     fst r = false) /\
  (state lane = BALL_PRESENT -> clearThresh_mm lane < d ->
     count (snd r) = wrap32 (count lane + 1) /\
     (0 <= count lane < 4294967295 -> count (snd r) = count lane + 1) /\
     lockoutStart (snd r) = now /\ state (snd r) = LOCKOUT /\
     fst r = true) /\
  (fst r = true -> state lane = BALL_PRESENT /\ clearThresh_mm lane < d) /\
  (state lane = IDLE -> threshold_mm lane <= d ->
     state (snd r) = IDLE /\ count (snd r) = count lane /\ fst r = false) /\
  (state lane = BALL_PRESENT -> d <= clearThresh_mm lane ->
     state (snd r) = BALL_PRESENT /\ count (snd r) = count lane /\
     fst r = false) /\
  (state lane = LOCKOUT ->
     count (snd r) = count lane /\ fst r = false /\
     (lo <= wrap32 (now - lockoutStart lane) -> state (snd r) = IDLE) /\
     (wrap32 (now - lockoutStart lane) < lo -> state (snd r) = LOCKOUT)).
Proof.
  intros Hok r; subst r.
  destruct lane as [b th cl c st ls ok ld]; simpl in Hok; subst ok.
  destruct st; lane_call;
    repeat split; intros; try discriminate; try lia; auto.
  all: unfold wrap32; rewrite Z.mod_small; lia.
Qed.

Lemma processLaneReading_transition_table_witness :
  let lane := mkLane 500 420 450 0 BALL_PRESENT 0 true 400 in
  let r := processLaneReading lane 460 40 60 in
  sensorOk lane = true /\
  count (snd r) = 1 /\ lockoutStart (snd r) = 40 /\
  state (snd r) = LOCKOUT /\ fst r = true.
Proof.
  intros lane r. split; [reflexivity |].
  destruct (processLaneReading_transition_table lane 460 40 60 eq_refl)
    as (_ & Hbp & _).
  destruct (Hbp eq_refl ltac:(simpl; lia)) as (_ & Hc & Hl & Hs & Hr).
  exact (conj (Hc ltac:(simpl; lia)) (conj Hl (conj Hs Hr))).
Defined.

(** C7: on a lane whose sensor is not healthy the call returns false and
    leaves the whole lane, [lastDistance_mm] included, as it was; on a
    healthy lane every call, whatever the state and also the one that
    counts, leaves the supplied sample in [lastDistance_mm], and the
    sample is recorded before the switch: recording it beforehand
    changes nothing. *)
Theorem unhealthy_noop_healthy_records lane d now lo :
  (sensorOk lane = false -> processLaneReading lane d now lo = (false, lane)) /\
  (sensorOk lane = true ->
     lastDistance_mm (snd (processLaneReading lane d now lo)) = d /\
     processLaneReading (set_lastDistance_mm d lane) d now lo
     = processLaneReading lane d now lo).
Proof.
  destruct lane as [b th cl c st ls ok ld]; simpl.
  split; intros ->; [reflexivity |].
  destruct st; lane_call; auto.
Qed.

Lemma unhealthy_noop_healthy_records_witness :
  processLaneReading (mkLane 500 420 450 3 BALL_PRESENT 7 false 123) 460 40 60
  = (false, mkLane 500 420 450 3 BALL_PRESENT 7 false 123) /\
  lastDistance_mm
    (snd (processLaneReading (mkLane 500 420 450 3 BALL_PRESENT 7 true 123)
            460 40 60)) = 460.
Proof.
  split.
  - exact (proj1 (unhealthy_noop_healthy_records
             (mkLane 500 420 450 3 BALL_PRESENT 7 false 123) 460 40 60)
             eq_refl).
  - exact (proj1 (proj2 (unhealthy_noop_healthy_records
             (mkLane 500 420 450 3 BALL_PRESENT 7 true 123) 460 40 60)
             eq_refl)).
Defined.

(** ** Sequences of calls on one lane *)

Lemma counted_flags_frame lo readings : forall lane,
  threshold_mm (lane_after lo lane readings) = threshold_mm lane /\
  clearThresh_mm (lane_after lo lane readings) = clearThresh_mm lane /\
  sensorOk (lane_after lo lane readings) = sensorOk lane.
Proof.
  induction readings as [| [d t] rest IH]; intros lane; simpl; [auto |].
  destruct (IH (snd (processLaneReading lane d t lo))) as (-> & -> & ->).
  destruct (processLaneReading_frame lane d t lo) as (_ & ? & ? & ?); auto.
Qed.

(** A counted reading lies above the clear threshold. *)
Lemma counted_above_clear lo readings : forall lane j,
  counted_flags lo lane readings !! j = Some true ->
  exists dj tj, readings !! j = Some (dj, tj) /\ clearThresh_mm lane < dj.
Proof.
  induction readings as [| [d t] rest IH]; intros lane j Hj; simpl in *.
  - destruct j; discriminate.
  - destruct j as [| j]; simpl in *.
    + injection Hj as Hj. apply counted_inv in Hj.
      exists d, t. intuition.
    + destruct (IH _ _ Hj) as (dj & tj & Hr & Hlt).
      exists dj, tj. split; [assumption |].
      destruct (processLaneReading_frame lane d t lo) as (_ & _ & <- & _).
      assumption.
Qed.

(** BALL_PRESENT is entered from IDLE only, on a reading below the
    detect threshold. *)
Lemma entered_inv lane d now lo :
  state lane <> BALL_PRESENT ->
  state (snd (processLaneReading lane d now lo)) = BALL_PRESENT ->
  state lane = IDLE /\ d < threshold_mm lane.
Proof.
  destruct lane as [b th cl c st ls ok ld]; destruct ok, st; lane_call;
    intros; try discriminate; try contradiction; auto.
Qed.

(** From a state other than BALL_PRESENT, a counted reading comes after
    a reading below the detect threshold. *)
Lemma counted_needs_entry lo readings : forall lane j,
  state lane <> BALL_PRESENT ->
  counted_flags lo lane readings !! j = Some true ->
  exists i di ti dj tj,
    (i < j)%nat /\ readings !! i = Some (di, ti) /\
    readings !! j = Some (dj, tj) /\
    di < threshold_mm lane /\ clearThresh_mm lane < dj.
Proof.
  induction readings as [| [d t] rest IH]; intros lane j Hst Hj; simpl in *.
  - destruct j; discriminate.
  - destruct (processLaneReading_frame lane d t lo) as (_ & Hth & Hcl & _).
    destruct j as [| j]; simpl in *.
    + injection Hj as Hj. apply counted_inv in Hj. intuition.
    + set (lane' := snd (processLaneReading lane d t lo)) in *.
      destruct (state lane') eqn:Hst'.
      * destruct (IH lane' j ltac:(congruence) Hj)
          as (i & di & ti & dj & tj & Hlt & Hi & Hjr & Hd & Hc).
        exists (S i), di, ti, dj, tj. simpl.
        rewrite <- Hth, <- Hcl. repeat split; try assumption. lia.
      * destruct (entered_inv lane d t lo Hst Hst') as (_ & Hd).
        destruct (counted_above_clear lo rest lane' j Hj)
          as (dj & tj & Hjr & Hc).
        exists O, d, t, dj, tj. simpl.
        rewrite <- Hcl. repeat split; try assumption. lia.
      * destruct (IH lane' j ltac:(congruence) Hj)
          as (i & di & ti & dj & tj & Hlt & Hi & Hjr & Hd & Hc).
        exists (S i), di, ti, dj, tj. simpl.
        rewrite <- Hth, <- Hcl. repeat split; try assumption. lia.
Qed.

(** C10: one call moves the state along at most one edge of the graph
    IDLE --> BALL_PRESENT --> LOCKOUT --> IDLE; a call made in IDLE, so
    also the one that enters BALL_PRESENT, never counts; a call made in
    LOCKOUT never ends in BALL_PRESENT and never counts; hence, starting
    in IDLE, a counted call is not the first one: an earlier call had a
    reading below the detect threshold and the counted call itself has a
    reading above the clear threshold. *)
Theorem one_edge_per_call :
  (forall lane d now lo,
     let lane' := snd (processLaneReading lane d now lo) in
     state lane' = state lane \/ graph_edge (state lane) (state lane') = true) /\
  (forall lane d now lo,
     state lane = IDLE -> fst (processLaneReading lane d now lo) = false) /\
  (forall lane d now lo,
     state lane = LOCKOUT ->
     state (snd (processLaneReading lane d now lo)) <> BALL_PRESENT /\
     fst (processLaneReading lane d now lo) = false) /\
  (forall lo lane readings j,
     state lane = IDLE ->
     counted_flags lo lane readings !! j = Some true ->
     exists i di ti dj tj,
       (i < j)%nat /\ readings !! i = Some (di, ti) /\
       readings !! j = Some (dj, tj) /\
       di < threshold_mm lane /\ clearThresh_mm lane < dj).
Proof.
  split; [| split; [| split]].
  - intros [b th cl c st ls ok ld] d now lo.
    destruct ok, st; lane_call; auto.
  - intros [b th cl c st ls ok ld] d now lo Hst; simpl in Hst; subst st.
    destruct ok; lane_call; auto.
  - intros [b th cl c st ls ok ld] d now lo Hst; simpl in Hst; subst st.
    destruct ok; lane_call; split; (discriminate || reflexivity).
  - intros lo lane readings j Hst Hj.
    apply (counted_needs_entry lo readings lane j); [congruence | assumption].
Qed.

Lemma one_edge_per_call_witness :
  exists i di ti dj tj,
    (i < 4)%nat /\
    [(600, 0); (600, 10); (400, 20); (400, 30); (460, 40); (460, 100)] !! i
      = Some (di, ti) /\
    [(600, 0); (600, 10); (400, 20); (400, 30); (460, 40); (460, 100)] !! 4%nat
      = Some (dj, tj) /\
    di < 420 /\ 450 < dj.
Proof.
  exact (proj2 (proj2 (proj2 one_edge_per_call)) 60
           (mkLane 500 420 450 0 IDLE 0 true 0)
           [(600, 0); (600, 10); (400, 20); (400, 30); (460, 40); (460, 100)]
           4%nat eq_refl eq_refl).
Defined.

(** ** Stale timestamps *)

(** C4 as stated fails: the lane is in LOCKOUT since t = 100 and is
    called with the earlier timestamp 50; no time has elapsed, let alone
    the 60 of the lockout, and yet the lane goes to IDLE, because
    50 - 100 wraps around to 4294967246. *)
Lemma stale_timestamp_leaves_lockout :
  let lane := mkLane 500 420 450 1 LOCKOUT 100 true 460 in
  state lane = LOCKOUT /\ 50 < lockoutStart lane /\
  wrap32 (50 - lockoutStart lane) = 4294967246 /\
  state (snd (processLaneReading lane 460 50 60)) = IDLE.
Proof. simpl. repeat split; lia. Qed.

(** C4 (amended): for a lane in LOCKOUT called with a timestamp earlier
    than its lockout start, the subtraction wraps around modulo 2^32
    (it does not saturate): the elapsed time the code compares is
    now - lockoutStart + 2^32.  The call always returns false and never
    fails; on a healthy lane it records the sample and goes to IDLE
    exactly when that wrapped value has reached the lockout duration,
    changing nothing else; on an unhealthy lane it changes nothing. *)
Theorem stale_timestamp_wraps lane d now lo :
  state lane = LOCKOUT ->
  is_u32 now -> is_u32 (lockoutStart lane) -> now < lockoutStart lane ->
  wrap32 (now - lockoutStart lane) = now - lockoutStart lane + 4294967296 /\
  processLaneReading lane d now lo
  = (false,
     if sensorOk lane then
       if lo <=? now - lockoutStart lane + 4294967296
       then set_state IDLE (set_lastDistance_mm d lane)
       else set_lastDistance_mm d lane
     else lane).
Proof.
  intros Hst Hnow Hls Hlt.
  assert (Hw : wrap32 (now - lockoutStart lane)
               = now - lockoutStart lane + 4294967296).
  { unfold wrap32, is_u32 in *.
    symmetry. apply (Z.mod_unique _ _ (-1)); lia. }
  split; [exact Hw |].
  unfold processLaneReading.
  destruct (sensorOk lane); simpl; [| reflexivity].
  rewrite Hst, Z.geb_leb, Hw.
  destruct (lo <=? now - lockoutStart lane + 4294967296); reflexivity.
Qed.

Lemma stale_timestamp_wraps_witness :
  processLaneReading (mkLane 500 420 450 1 LOCKOUT 100 true 460) 470 50 60
  = (false, mkLane 500 420 450 1 IDLE 100 true 470).
Proof.
  exact (proj2 (stale_timestamp_wraps
                  (mkLane 500 420 450 1 LOCKOUT 100 true 460) 470 50 60
                  eq_refl
                  ltac:(unfold is_u32; lia)
                  ltac:(unfold is_u32; simpl; lia)
                  ltac:(simpl; lia))).
Defined.

(** ** Thresholds *)

Lemma wrap16_small z : 0 <= z < 65536 -> wrap16 z = z.
Proof. intros H. unfold wrap16. apply Z.mod_small. exact H. Qed.

Lemma wrap16_below z : -65536 <= z < 0 -> wrap16 z = z + 65536.
Proof.
  intros H. unfold wrap16. symmetry. apply (Z.mod_unique _ _ (-1)); lia.
Qed.


(** C3: the code does not do what the claim says.  With a baseline of
    50 mm, below the detection delta of 80 mm, [calculateThresholds]
    does not clamp the detect threshold to zero: the 16-bit subtraction
    wraps around and 65506 is stored (and 0 as clear threshold).  The
    rule the code documents, "ball present below baseline - delta",
    then holds for no reading; with the stored value every reading is
    below the detect threshold, and the lane counts the 50 mm of its
    own empty lane as a ball, again after each lockout.  With the
    detect threshold at zero the same readings count nothing. *)
Theorem detect_threshold_underflow_counts_empty_lane :
  let lane := calculateThresholds (set_sensorOk true Lane_default)
                50 DETECTION_DELTA_MM CLEAR_HYSTERESIS_MM in
  DETECTION_DELTA_MM >= 50 /\
  threshold_mm lane = 65506 /\ threshold_mm lane <> 0 /\
  clearThresh_mm lane = 0 /\
  counted_flags LOCKOUT_MS lane
    [(50, 0); (50, 30); (50, 60); (50, 90); (50, 120); (50, 150)]
  = [false; true; false; false; false; true] /\
  counted_flags LOCKOUT_MS (set_threshold_mm 0 lane)
    [(50, 0); (50, 30); (50, 60); (50, 90); (50, 120); (50, 150)]
  = [false; false; false; false; false; false].
Proof.
  cbv zeta. split; [discriminate |]. split; [reflexivity |].
  split; [discriminate |]. split; [reflexivity |].
  split; reflexivity.
Qed.

(** The underflow is not particular to these values: for 16-bit
    arguments the stored detect threshold is zero only when the
    detection delta equals the baseline; for every larger delta it is
    baseline - delta + 65536, a positive value. *)
Lemma detect_threshold_wraps lane baseline delta hyst :
  is_u16 baseline -> is_u16 delta -> delta >= baseline ->
  let lane' := calculateThresholds lane baseline delta hyst in
  (delta = baseline -> threshold_mm lane' = 0) /\
  (baseline < delta ->
     threshold_mm lane' = baseline - delta + 65536 /\
     0 < threshold_mm lane').
Proof.
  unfold is_u16; intros Hb Hd Hge; simpl. split.
  - intros ->. rewrite Z.sub_diag. reflexivity.
  - intros Hlt. rewrite wrap16_below by lia. lia.
Qed.

Lemma detect_threshold_wraps_witness :
  threshold_mm (calculateThresholds Lane_default 50 80 30) = 50 - 80 + 65536 /\
  0 < threshold_mm (calculateThresholds Lane_default 50 80 30).
Proof.
  exact (proj2 (detect_threshold_wraps Lane_default 50 80 30
                  ltac:(unfold is_u16; lia) ltac:(unfold is_u16; lia)
                  ltac:(lia))
               ltac:(lia)).
Defined.




(** ** Lockout between two counts *)

Lemma nondecreasing_from_cons t0 t rest :
  nondecreasing_from t0 (t :: rest) = true ->
  t0 <= t /\ nondecreasing_from t rest = true.
Proof.
  simpl. intros H. apply andb_prop in H as [H1 H2].
  split; [apply Z.leb_le; exact H1 | exact H2].
Qed.

(** A call made in LOCKOUT at a timestamp not before the lockout start
    either keeps the lockout as it is or ends it, and ends it only once
    the lockout duration has elapsed. *)
Lemma lockout_step lane d now lo :
  state lane = LOCKOUT ->
  0 <= lockoutStart lane <= now -> now < 4294967296 ->
  let lane' := snd (processLaneReading lane d now lo) in
  (state lane' = LOCKOUT /\ lockoutStart lane' = lockoutStart lane) \/
  lo <= now - lockoutStart lane.
Proof.
  destruct lane as [b th cl c st ls ok ld]; simpl; intros -> Hls Hnow.
  assert (Hw : wrap32 (now - ls) = now - ls)
    by (unfold wrap32; apply Z.mod_small; lia).
  destruct ok; lane_call; auto. right; lia.
Qed.

Section Lockout.
Variable lo : Z.

(** Once a count has happened at [t1], every later count is at least
    the lockout duration after [t1].  [tmin] bounds the timestamps of
    the readings still to come from below. *)
Lemma no_count_during_lockout t1 readings : forall lane tmin j dj tj,
  0 <= t1 ->
  nondecreasing_from tmin (map snd readings) = true ->
  forallb (fun t => t <? 4294967296) (map snd readings) = true ->
  t1 + lo <= tmin \/
    (state lane = LOCKOUT /\ lockoutStart lane = t1 /\ t1 <= tmin) ->
  counted_flags lo lane readings !! j = Some true ->
  readings !! j = Some (dj, tj) ->
  lo <= tj - t1.
Proof.
  induction readings as [| [d t] rest IH];
    intros lane tmin j dj tj Ht1 Hnd Hbd Hinv Hj Hr.
  - destruct j; discriminate.
  - simpl map in Hnd, Hbd.
    apply nondecreasing_from_cons in Hnd as [Hle Hnd].
    simpl in Hbd. apply andb_prop in Hbd as [Hlt Hbd].
    apply Z.ltb_lt in Hlt.
    destruct j as [| j]; simpl in Hj, Hr.
    + injection Hj as Hj. injection Hr as -> ->.
      apply counted_inv in Hj as (_ & Hst & _).
      destruct Hinv as [Hfar | (Hlk & _)]; [lia | congruence].
    + apply (IH (snd (processLaneReading lane d t lo)) t j dj tj);
        try assumption.
      destruct Hinv as [Hfar | (Hlk & Hls & Hge)]; [left; lia |].
      destruct (lockout_step lane d t lo Hlk ltac:(lia) Hlt)
        as [(Hlk' & Hls') | Hdone].
      * right. repeat split; [assumption | congruence | lia].
      * left. lia.
Qed.

Lemma counts_apart_from tmin readings : forall lane i j di ti dj tj,
  0 <= tmin ->
  nondecreasing_from tmin (map snd readings) = true ->
  forallb (fun t => t <? 4294967296) (map snd readings) = true ->
  (i < j)%nat ->
  readings !! i = Some (di, ti) -> readings !! j = Some (dj, tj) ->
  counted_flags lo lane readings !! i = Some true ->
  counted_flags lo lane readings !! j = Some true ->
  lo <= tj - ti.
Proof.
  revert tmin.
  induction readings as [| [d t] rest IH];
    intros tmin lane i j di ti dj tj Hmin Hnd Hbd Hij Hi Hj Hci Hcj.
  - destruct i; discriminate.
  - simpl map in Hnd, Hbd.
    apply nondecreasing_from_cons in Hnd as [Hle Hnd].
    simpl in Hbd. apply andb_prop in Hbd as [Hlt Hbd].
    destruct j as [| j]; [lia |].
    simpl in Hj, Hcj.
    destruct i as [| i]; simpl in Hi, Hci.
    + injection Hci as Hci. injection Hi as -> ->.
      apply counted_inv in Hci as (_ & _ & _ & Hlk & Hls).
      apply (no_count_during_lockout ti rest
               (snd (processLaneReading lane di ti lo)) ti j dj tj);
        try assumption; [lia |].
      right. repeat split; [assumption | assumption | lia].
    + apply (IH t (snd (processLaneReading lane d t lo)) i j di ti dj tj);
        try assumption; lia.
Qed.

End Lockout.

(** C9: over any sequence of calls on one lane whose timestamps are
    32-bit values that never decrease, two calls that return true are at
    least the lockout duration apart. *)
Theorem counts_lockout_apart lo lane readings i j di ti dj tj :
  timestamps_ok readings = true ->
  (i < j)%nat ->
  readings !! i = Some (di, ti) -> readings !! j = Some (dj, tj) ->
  counted_flags lo lane readings !! i = Some true ->
  counted_flags lo lane readings !! j = Some true ->
  lo <= tj - ti.
Proof.
  unfold timestamps_ok. intros Hok Hij Hi Hj Hci Hcj.
  apply andb_prop in Hok as [Hnd Hbd].
  apply (counts_apart_from lo 0 readings lane i j di ti dj tj);
    try assumption; lia.
Qed.

Lemma counts_lockout_apart_witness :
  timestamps_ok
    [(400, 20); (460, 40); (600, 100); (400, 130); (470, 160)] = true /\
  counted_flags 60 (mkLane 500 420 450 0 IDLE 0 true 0)
    [(400, 20); (460, 40); (600, 100); (400, 130); (470, 160)]
  = [false; true; false; false; true] /\
  60 <= 160 - 40.
Proof.
  split; [reflexivity | split; [reflexivity |]].
  exact (counts_lockout_apart 60 (mkLane 500 420 450 0 IDLE 0 true 0)
           [(400, 20); (460, 40); (600, 100); (400, 130); (470, 160)]
           1%nat 4%nat 460 40 470 160
           eq_refl ltac:(lia) eq_refl eq_refl eq_refl eq_refl).
Defined.

(** ** Reset *)

(** The loop of [resetLanes] stays inside the array when the array has
    room for the indices it visits, keeps its length, and resets exactly
    the lanes at these indices. *)
Lemma resetLanes_loop_lookup todo : forall i (ls : list Lane),
  (i + todo <= length ls)%nat ->
  exists ls',
    resetLanes_loop todo i ls = Some ls' /\
    length ls' = length ls /\
    forall k,
      ls' !! k = if decide (i <= k < i + todo)%nat
                 then reset_lane <$> ls !! k else ls !! k.
Proof.
  induction todo as [| todo IH]; intros i ls Hlen; simpl.
  - exists ls. repeat split. intros k.
    destruct (decide (i <= k < i + 0)%nat); [lia | reflexivity].
  - destruct (lookup_lt_is_Some_2 ls i ltac:(lia)) as [l Hl].
    rewrite Hl.
    destruct (IH (S i) (<[i := reset_lane l]> ls)) as (ls' & Hrun & Hlen' & Hk).
    { rewrite length_insert. lia. }
    exists ls'. split; [exact Hrun |].
    split; [rewrite Hlen'; apply length_insert |].
    intros k. rewrite Hk.
    destruct (decide (k = i)) as [-> | Hne].
    + rewrite list_lookup_insert_eq by lia. rewrite Hl.
      destruct (decide (S i <= i < S i + todo)%nat); [lia |].
      destruct (decide (i <= i < i + S todo)%nat); [reflexivity | lia].
    + rewrite list_lookup_insert_ne by congruence.
      destruct (decide (S i <= k < S i + todo)%nat),
               (decide (i <= k < i + S todo)%nat); try reflexivity; lia.
Qed.

Lemma resetLanes_lookup (ls : list Lane) num_lanes total :
  (num_lanes <= length ls)%nat ->
  exists ls',
    resetLanes ls num_lanes total = Some (ls', 0) /\
    length ls' = length ls /\
    forall k,
      ls' !! k = if decide (k < num_lanes)%nat
                 then reset_lane <$> ls !! k else ls !! k.
Proof.
  intros Hlen. unfold resetLanes.
  destruct (resetLanes_loop_lookup num_lanes 0 ls ltac:(lia))
    as (ls' & -> & Hlen' & Hk).
  exists ls'. repeat split; [exact Hlen' |].
  intros k. rewrite Hk.
  destruct (decide (0 <= k < 0 + num_lanes)%nat),
           (decide (k < num_lanes)%nat); try reflexivity; lia.
Qed.

Lemma sum_counts_all_zero (ls : list Lane) :
  (forall k l, ls !! k = Some l -> count l = 0) -> sum_counts ls = 0.
Proof.
  induction ls as [| l ls IH]; intros H; simpl; [reflexivity |].
  rewrite (H O l eq_refl), IH; [reflexivity |].
  intros k l' Hk. exact (H (S k) l' Hk).
Qed.

(** C5 as stated fails: the reset leaves the lockout start of a lane
    (here 40) as it was; it is not put back to its initial value 0. *)
Lemma reset_keeps_lockout_start :
  resetLanes [mkLane 500 420 450 1 LOCKOUT 40 true 460] 1 1
  = Some ([mkLane 500 420 450 0 IDLE 40 true 460], 0) /\
  lockoutStart (mkLane 500 420 450 0 IDLE 40 true 460) <> 0.
Proof. split; [reflexivity | discriminate]. Qed.

(** C5 (amended): whatever the lanes held before, [resetLanes] puts the
    count of every lane it covers to 0 and its state to IDLE; the
    lockout start time is not reset, it keeps the value it had. *)
Theorem resetLanes_resets_count_and_state (ls : list Lane) num_lanes total :
  (num_lanes <= length ls)%nat ->
  exists ls',
    resetLanes ls num_lanes total = Some (ls', 0) /\
    forall k l, (k < num_lanes)%nat -> ls !! k = Some l ->
      exists l', ls' !! k = Some l' /\
        count l' = 0 /\ state l' = IDLE /\
        lockoutStart l' = lockoutStart l.
Proof.
  intros Hlen.
  destruct (resetLanes_lookup ls num_lanes total Hlen) as (ls' & Hr & _ & Hk).
  exists ls'. split; [exact Hr |].
  intros k l Hlt Hl. exists (reset_lane l).
  rewrite Hk, Hl. destruct (decide (k < num_lanes)%nat); [| lia].
  repeat split.
Qed.

Lemma resetLanes_resets_count_and_state_witness :
  exists ls',
    resetLanes [mkLane 500 420 450 1 LOCKOUT 40 true 460;
                mkLane 300 220 250 7 BALL_PRESENT 9 false 210] 2 8
    = Some (ls', 0) /\
    exists l', ls' !! 1%nat = Some l' /\
      count l' = 0 /\ state l' = IDLE /\ lockoutStart l' = 9.
Proof.
  destruct (resetLanes_resets_count_and_state
              [mkLane 500 420 450 1 LOCKOUT 40 true 460;
               mkLane 300 220 250 7 BALL_PRESENT 9 false 210] 2 8
              ltac:(simpl; lia)) as (ls' & Hr & Hk).
  exists ls'. split; [exact Hr |].
  exact (Hk 1%nat (mkLane 300 220 250 7 BALL_PRESENT 9 false 210)
           ltac:(lia) eq_refl).
Defined.

Lemma resetLanes_zeroes_and_preserves_aux (ls : list Lane) total :
  exists ls',
    resetLanes ls (length ls) total = Some (ls', 0) /\
    length ls' = length ls /\ sum_counts ls' = 0.
Proof.
  destruct (resetLanes_lookup ls (length ls) total ltac:(lia))
    as (ls' & Hr & Hlen & Hk).
  exists ls'. split; [exact Hr |]. split; [exact Hlen |].
  apply sum_counts_all_zero. intros k l' Hl'.
  rewrite Hk in Hl'.
  destruct (decide (k < length ls)%nat) as [Hlt | Hge].
  - destruct (ls !! k) as [l |]; [| discriminate].
    injection Hl' as <-. reflexivity.
  - apply lookup_lt_Some in Hl'. lia.
Qed.

(** C6: whatever the array and the total held before, [resetLanes]
    called with the length of the array returns with the total at zero,
    and with every lane at count 0 and state IDLE, its baseline, detect
    threshold, clear threshold and health flag being what they were; so
    the sum of the counts read right after is 0 as well. *)
Theorem resetLanes_zeroes_and_preserves (ls : list Lane) total :
  exists ls',
    resetLanes ls (length ls) total = Some (ls', 0) /\
    length ls' = length ls /\
    sum_counts ls' = 0 /\
    forall k l, ls !! k = Some l ->
      exists l', ls' !! k = Some l' /\
        count l' = 0 /\ state l' = IDLE /\
        baseline_mm l' = baseline_mm l /\
        threshold_mm l' = threshold_mm l /\
        clearThresh_mm l' = clearThresh_mm l /\
        sensorOk l' = sensorOk l.
Proof.
  destruct (resetLanes_lookup ls (length ls) total ltac:(lia))
    as (ls' & Hr & Hlen & Hk).
  assert (Hall : forall k l, ls !! k = Some l ->
                   ls' !! k = Some (reset_lane l)).
  { intros k l Hl. rewrite Hk, Hl.
    apply lookup_lt_Some in Hl.
    destruct (decide (k < length ls)%nat); [reflexivity | lia]. }
  exists ls'. split; [exact Hr |]. split; [exact Hlen |]. split.
  - apply sum_counts_all_zero. intros k l' Hl'.
    destruct (lookup_lt_is_Some_2 ls k) as [l Hl].
    { rewrite <- Hlen. eapply lookup_lt_Some; eassumption. }
    rewrite (Hall k l Hl) in Hl'. injection Hl' as <-. reflexivity.
  - intros k l Hl. exists (reset_lane l).
    split; [exact (Hall k l Hl) |]. repeat split.
Qed.

Lemma resetLanes_zeroes_and_preserves_witness :
  exists ls',
    resetLanes [mkLane 500 420 450 1 LOCKOUT 40 true 460;
                mkLane 300 220 250 7 BALL_PRESENT 9 false 210] 2 8
    = Some (ls', 0) /\
    exists l', ls' !! 0%nat = Some l' /\
      count l' = 0 /\ state l' = IDLE /\
      baseline_mm l' = 500 /\ threshold_mm l' = 420 /\
      clearThresh_mm l' = 450 /\ sensorOk l' = true.
Proof.
  destruct (resetLanes_zeroes_and_preserves
              [mkLane 500 420 450 1 LOCKOUT 40 true 460;
               mkLane 300 220 250 7 BALL_PRESENT 9 false 210] 8)
    as (ls' & Hr & _ & _ & Hk).
  exists ls'. split; [exact Hr |].
  exact (Hk 0%nat (mkLane 500 420 450 1 LOCKOUT 40 true 460) eq_refl).
Defined.

(** ** The total and the lane counts *)

Lemma sum_counts_insert (ls : list Lane) : forall k l l',
  ls !! k = Some l ->
  sum_counts (<[k := l']> ls) = sum_counts ls - count l + count l'.
Proof.
  induction ls as [| a ls IH]; intros k l l' Hk.
  - destruct k; discriminate.
  - destruct k as [| k]; simpl in *.
    + injection Hk as ->. lia.
    + rewrite (IH k l l' Hk). lia.
Qed.

(** A call changes the count only when it returns true, and then by a
    32-bit increment. *)
Lemma count_after_call lane d now lo :
  count (snd (processLaneReading lane d now lo))
  = if fst (processLaneReading lane d now lo)
    then wrap32 (count lane + 1) else count lane.
Proof.
  destruct lane as [b th cl c st ls ok ld]; destruct ok, st; lane_call;
    reflexivity.
Qed.

Lemma wrap32_succ_sum a c :
  wrap32 (wrap32 a + 1) = wrap32 (a - c + wrap32 (c + 1)).
Proof.
  unfold wrap32.
  rewrite Zplus_mod_idemp_l, Zplus_mod_idemp_r.
  f_equal. lia.
Qed.

Lemma updateLane_preserves ch dist tmo now s :
  (ch < length (lanes s))%nat -> total_matches s ->
  exists s', updateLane ch dist tmo now s = Some s' /\
    length (lanes s') = length (lanes s) /\ total_matches s'.
Proof.
  intros Hch Hinv. unfold updateLane.
  destruct (lookup_lt_is_Some_2 (lanes s) ch Hch) as [lane Hl].
  rewrite Hl.
  destruct (negb (sensorOk lane)); [exists s; auto |].
  destruct tmo; [exists s; auto |].
  pose proof (count_after_call lane dist now LOCKOUT_MS) as Hc.
  destruct (processLaneReading lane dist now LOCKOUT_MS) as [counted lane'].
  simpl in Hc.
  destruct counted; eexists; (split; [reflexivity |]); simpl;
    (split; [apply length_insert |]);
    unfold total_matches in *; simpl;
    rewrite (sum_counts_insert _ _ _ _ Hl), Hc.
  - rewrite Hinv. apply wrap32_succ_sum.
  - rewrite Hinv. f_equal. lia.
Qed.

Lemma onWsMessage_reset_preserves s :
  System_wf s ->
  exists s', onWsMessage_reset s = Some s' /\
    length (lanes s') = length (lanes s) /\ total_matches s'.
Proof.
  unfold System_wf, onWsMessage_reset. intros Hwf. rewrite <- Hwf.
  destruct (resetLanes_zeroes_and_preserves_aux (lanes s) (totalCount s))
    as (ls' & -> & Hlen & Hsum).
  eexists. split; [reflexivity |]. simpl.
  split; [exact Hlen |].
  unfold total_matches; simpl. rewrite Hsum. reflexivity.
Qed.

Lemma run_app evs1 : forall evs2 s,
  run (evs1 ++ evs2) s
  = match run evs1 s with Some s' => run evs2 s' | None => None end.
Proof.
  induction evs1 as [| e evs1 IH]; intros evs2 s; simpl; [reflexivity |].
  destruct (step e s); [apply IH | reflexivity].
Qed.

Lemma run_preserves evs : forall s,
  System_wf s -> forallb Event_in_bounds evs = true -> total_matches s ->
  exists s', run evs s = Some s' /\ System_wf s' /\ total_matches s'.
Proof.
  induction evs as [| e evs IH]; intros s Hwf Hin Hinv; simpl.
  - exists s. auto.
  - simpl in Hin. apply andb_prop in Hin as [He Hin].
    assert (Hstep : exists s1, step e s = Some s1 /\
              length (lanes s1) = length (lanes s) /\ total_matches s1).
    { destruct e as [ch dist tmo now |]; simpl in *.
      - apply updateLane_preserves; [| assumption].
        apply Nat.ltb_lt in He. unfold System_wf in Hwf. lia.
      - apply onWsMessage_reset_preserves. assumption. }
    destruct Hstep as (s1 & -> & Hlen & Hinv1).
    apply IH; try assumption.
    unfold System_wf in *. congruence.
Qed.

(** C2 (amended): from a state of the four lanes in which the total is
    the sum of the lane counts modulo 2^32 (as at start-up, where all
    are zero), any finite sequence of [updateLane] calls on existing
    lanes and of reset commands runs to the end and leaves the total
    equal to the sum of the lane counts modulo 2^32; the two are equal
    as integers whenever that sum is below 2^32. *)
Theorem total_is_sum_mod_2_32 evs s :
  System_wf s -> forallb Event_in_bounds evs = true ->
  totalCount s = wrap32 (sum_counts (lanes s)) ->
  exists s', run evs s = Some s' /\
    totalCount s' = wrap32 (sum_counts (lanes s')) /\
    (0 <= sum_counts (lanes s') < 4294967296 ->
       totalCount s' = sum_counts (lanes s')).
Proof.
  intros Hwf Hin Hinv.
  destruct (run_preserves evs s Hwf Hin Hinv) as (s' & Hrun & _ & Hinv').
  exists s'. split; [exact Hrun |]. split; [exact Hinv' |].
  intros Hsmall. rewrite Hinv'. unfold wrap32. apply Z.mod_small. exact Hsmall.
Qed.

Lemma total_is_sum_mod_2_32_witness :
  exists s',
    run (ball_pass 0 10 ++ ball_pass 2 100 ++ [ResetCommand] ++ ball_pass 3 190)
        fresh_system = Some s' /\
    totalCount s' = wrap32 (sum_counts (lanes s')).
Proof.
  destruct (total_is_sum_mod_2_32
              (ball_pass 0 10 ++ ball_pass 2 100 ++ [ResetCommand] ++ ball_pass 3 190)
              fresh_system eq_refl eq_refl eq_refl)
    as (s' & Hrun & Hinv & _).
  exists s'. exact (conj Hrun Hinv).
Defined.

Example mixed_run :
  run (ball_pass 0 10 ++ ball_pass 2 100 ++ [ResetCommand] ++ ball_pass 3 190)
      fresh_system
  = Some (mkSystem
            [mkLane 500 420 450 0 IDLE 40 true 600;
             mkLane 500 420 450 0 IDLE 0 true 0;
             mkLane 500 420 450 0 IDLE 130 true 600;
             mkLane 500 420 450 1 IDLE 220 true 600] 1 true).
Proof. reflexivity. Qed.

(** *** The total wraps around before the sum does *)

Lemma lockout_elapsed t :
  (wrap32 (wrap32 (t + 90) - wrap32 (t + 30)) >=? LOCKOUT_MS) = true.
Proof.
  unfold wrap32. rewrite Zminus_mod_idemp_l, Zminus_mod_idemp_r.
  replace (t + 90 - (t + 30)) with 60 by lia. reflexivity.
Qed.

(** One ball through a healthy, idle lane calibrated at 420 / 450. *)
Lemma ball_pass_run ch t s lane :
  lanes s !! ch = Some lane ->
  sensorOk lane = true -> state lane = IDLE ->
  threshold_mm lane = 420 -> clearThresh_mm lane = 450 ->
  run (ball_pass ch t) s
  = Some (mkSystem
            (<[ch := mkLane (baseline_mm lane) 420 450
                       (wrap32 (count lane + 1)) IDLE (wrap32 (t + 30))
                       true 600]> (lanes s))
            (wrap32 (totalCount s + 1)) true).
Proof.
  destruct lane as [b th cl c st ls ok ld]; simpl.
  intros Hl -> -> -> ->.
  assert (Hch : (ch < length (lanes s))%nat)
    by (eapply lookup_lt_Some; eassumption).
  unfold ball_pass, run, step, updateLane.
  rewrite Hl.
  unfold processLaneReading at 1; cbn -[wrap32 Z.geb].
  rewrite list_lookup_insert_eq by exact Hch.
  unfold processLaneReading at 1; cbn -[wrap32 Z.geb].
  rewrite list_lookup_insert_eq by (rewrite length_insert; exact Hch).
  unfold processLaneReading at 1; cbn -[wrap32 Z.geb].
  rewrite lockout_elapsed. cbn -[wrap32].
  rewrite !list_insert_insert_eq. reflexivity.
Qed.

Lemma wrap32_u32 z : is_u32 (wrap32 z).
Proof. unfold is_u32, wrap32. apply Z.mod_pos_bound. lia. Qed.

(** [n] balls through the same lane: count and total both advance by
    [n] modulo 2^32. *)
Lemma ball_passes_run n : forall s lane ch t,
  lanes s !! ch = Some lane ->
  sensorOk lane = true -> state lane = IDLE ->
  threshold_mm lane = 420 -> clearThresh_mm lane = 450 ->
  is_u32 (count lane) -> is_u32 (totalCount s) ->
  exists lane' cc,
    run (ball_passes n ch t) s
    = Some (mkSystem (<[ch := lane']> (lanes s))
              (wrap32 (totalCount s + Z.of_nat n)) cc) /\
    count lane' = wrap32 (count lane + Z.of_nat n).
Proof.
  induction n as [| n IH]; intros s lane ch t Hl Hok Hst Hth Hcl Hc Ht.
  - exists lane, (countsChanged s). unfold wrap32, is_u32 in *.
    rewrite !Z.add_0_r, !Z.mod_small by assumption.
    rewrite list_insert_id by exact Hl.
    destruct s; split; reflexivity.
  - change (ball_passes (S n) ch t)
      with (ball_pass ch t ++ ball_passes n ch (wrap32 (t + 90))).
    rewrite run_app, (ball_pass_run ch t s lane Hl Hok Hst Hth Hcl).
    assert (Hch : (ch < length (lanes s))%nat)
      by (eapply lookup_lt_Some; eassumption).
    set (lane1 := mkLane (baseline_mm lane) 420 450
                    (wrap32 (count lane + 1)) IDLE (wrap32 (t + 30))
                    true 600).
    set (s1 := mkSystem (<[ch := lane1]> (lanes s))
                 (wrap32 (totalCount s + 1)) true).
    destruct (IH s1 lane1 ch (wrap32 (t + 90)))
      as (lane' & cc & Hrun & Hcount);
      try reflexivity; try apply wrap32_u32.
    { apply list_lookup_insert_eq. exact Hch. }
    exists lane', cc. rewrite Hrun, Hcount. subst s1 lane1.
    cbn [lanes totalCount count].
    rewrite list_insert_insert_eq.
    unfold wrap32. rewrite !Zplus_mod_idemp_l.
    assert (E : forall x, x + 1 + Z.of_nat n = x + Z.of_nat (S n))
      by (intros; lia).
    rewrite !E. split; reflexivity.
Qed.

(** C2 as stated fails: on a freshly calibrated system, 2^32 - 1 balls
    through lane 0 followed by one ball through lane 1 leave the total
    at 0, wrapped around, while the lane counts, 2^32 - 1 and 1, add up
    to 2^32. *)
Lemma total_differs_from_sum_after_wrap :
  exists s',
    run overflow_trace fresh_system = Some s' /\
    totalCount s' = 0 /\
    sum_counts (lanes s') = 4294967296 /\
    totalCount s' <> sum_counts (lanes s').
Proof.
  unfold overflow_trace. rewrite run_app.
  destruct (ball_passes_run (Z.to_nat 4294967295) fresh_system
              calibrated_lane 0 1000
              eq_refl eq_refl eq_refl eq_refl eq_refl)
    as (lane0 & cc & -> & Hc0).
  { unfold is_u32; simpl; lia. }
  { unfold is_u32; simpl; lia. }
  rewrite Z2Nat.id in * by lia.
  cbv beta iota.
  set (s1 := mkSystem (<[0%nat := lane0]> (lanes fresh_system))
               (wrap32 (totalCount fresh_system + 4294967295)) cc).
  assert (Hl1 : lanes s1 !! 1%nat = Some calibrated_lane) by reflexivity.
  rewrite (ball_pass_run 1 5000 s1 calibrated_lane Hl1 eq_refl eq_refl
             eq_refl eq_refl).
  subst s1. eexists. split; [reflexivity |].
  cbn [totalCount lanes].
  assert (Hs : sum_counts
                 (<[1%nat := mkLane (baseline_mm calibrated_lane) 420 450
                      (wrap32 (count calibrated_lane + 1)) IDLE
                      (wrap32 (5000 + 30)) true 600]>
                    (<[0%nat := lane0]> (lanes fresh_system)))
               = 4294967296).
  { cbn. rewrite Hc0. reflexivity. }
  rewrite Hs. split; [reflexivity | split; [reflexivity | discriminate]].
Qed.

(** * Further properties of the counting core *)

(** ** Whole runs of one lane *)

Lemma lane_after_app lo rs1 : forall lane rs2,
  lane_after lo lane (rs1 ++ rs2) = lane_after lo (lane_after lo lane rs1) rs2.
Proof.
  induction rs1 as [| [d t] rs1 IH]; intros lane rs2; simpl; [reflexivity |].
  apply IH.
Qed.

Lemma counted_flags_app lo rs1 : forall lane rs2,
  counted_flags lo lane (rs1 ++ rs2)
  = counted_flags lo lane rs1 ++ counted_flags lo (lane_after lo lane rs1) rs2.
Proof.
  induction rs1 as [| [d t] rs1 IH]; intros lane rs2; simpl; [reflexivity |].
  rewrite IH. reflexivity.
Qed.

Lemma counted_events_app fs1 fs2 :
  counted_events (fs1 ++ fs2) = counted_events fs1 + counted_events fs2.
Proof. induction fs1 as [| f fs1 IH]; simpl; [reflexivity | lia]. Qed.

Lemma counted_events_bounds fs :
  0 <= counted_events fs <= Z.of_nat (length fs).
Proof.
  induction fs as [| [|] fs IH]; simpl length; simpl counted_events; lia.
Qed.

Lemma count_tracks_events_mod lo rs : forall lane,
  is_u32 (count lane) ->
  count (lane_after lo lane rs)
  = wrap32 (count lane + counted_events (counted_flags lo lane rs)).
Proof.
  induction rs as [| [d t] rs IH]; intros lane Hc; simpl.
  - rewrite Z.add_0_r. unfold wrap32. symmetry. apply Z.mod_small. exact Hc.
  - pose proof (count_after_call lane d t lo) as Hcall.
    destruct (fst (processLaneReading lane d t lo)).
    + rewrite IH by (rewrite Hcall; apply wrap32_u32).
      rewrite Hcall. unfold wrap32. rewrite Zplus_mod_idemp_l.
      f_equal. lia.
    + rewrite IH by (rewrite Hcall; exact Hc).
      rewrite Hcall. reflexivity.
Qed.

(** X1: over any sequence of calls on one lane the count advances by
    the number of calls that returned true, as a 32-bit value; as long
    as the result stays below 2^32 it is the old count plus that
    number.  The count changes in no other way. *)
Theorem count_tracks_events lo lane rs :
  is_u32 (count lane) ->
  let n := counted_events (counted_flags lo lane rs) in
  0 <= n <= Z.of_nat (length rs) /\
  count (lane_after lo lane rs) = wrap32 (count lane + n) /\
  (count lane + n < 4294967296 -> count (lane_after lo lane rs) = count lane + n).
Proof.
  intros Hc n.
  assert (Hn : 0 <= n <= Z.of_nat (length rs)).
  { subst n. pose proof (counted_events_bounds (counted_flags lo lane rs)) as H.
    assert (Hlen : length (counted_flags lo lane rs) = length rs).
    { clear. revert lane. induction rs as [| [d t] rs IH]; intros lane;
        simpl; [reflexivity | rewrite IH; reflexivity]. }
    rewrite Hlen in H. exact H. }
  split; [exact Hn |]. split.
  - apply count_tracks_events_mod. exact Hc.
  - intros Hsmall. rewrite count_tracks_events_mod by exact Hc.
    unfold wrap32, is_u32 in *. apply Z.mod_small. subst n. lia.
Qed.

Lemma count_tracks_events_witness :
  count (lane_after 60 (mkLane 500 420 450 7 IDLE 0 true 0)
           [(400, 20); (460, 40); (600, 100); (400, 130); (470, 160)])
  = 7 + 2.
Proof.
  exact (proj2 (proj2 (count_tracks_events 60
                         (mkLane 500 420 450 7 IDLE 0 true 0)
                         [(400, 20); (460, 40); (600, 100); (400, 130);
                          (470, 160)]
                         ltac:(unfold is_u32; simpl; lia)))
               ltac:(vm_compute; reflexivity)).
Defined.

(** X2: a lane whose sensor is not healthy is left exactly as it is by
    any sequence of calls, and none of them counts. *)
Theorem unhealthy_lane_never_counts lo lane rs :
  sensorOk lane = false ->
  lane_after lo lane rs = lane /\
  counted_flags lo lane rs = replicate (length rs) false.
Proof.
  intros Hok. induction rs as [| [d t] rs [IH1 IH2]]; simpl; [auto |].
  assert (Hcall : processLaneReading lane d t lo = (false, lane))
    by (unfold processLaneReading; rewrite Hok; reflexivity).
  rewrite Hcall; simpl. rewrite IH1, IH2. auto.
Qed.

Lemma unhealthy_lane_never_counts_witness :
  lane_after 60 (mkLane 500 420 450 2 BALL_PRESENT 0 false 0)
    [(400, 20); (460, 40); (600, 100)]
  = mkLane 500 420 450 2 BALL_PRESENT 0 false 0 /\
  counted_flags 60 (mkLane 500 420 450 2 BALL_PRESENT 0 false 0)
    [(400, 20); (460, 40); (600, 100)]
  = [false; false; false].
Proof.
  exact (unhealthy_lane_never_counts 60
           (mkLane 500 420 450 2 BALL_PRESENT 0 false 0)
           [(400, 20); (460, 40); (600, 100)] eq_refl).
Defined.

(** While the ball is present, readings at or below the clear threshold
    change nothing but the recorded distance; the first reading above
    it counts. *)
Lemma present_until_clear lo d2 t2 mids : forall lane,
  sensorOk lane = true -> state lane = BALL_PRESENT ->
  forallb (fun r => fst r <=? clearThresh_mm lane) mids = true ->
  clearThresh_mm lane < d2 ->
  counted_flags lo lane (mids ++ [(d2, t2)])
  = replicate (length mids) false ++ [true] /\
  lane_after lo lane (mids ++ [(d2, t2)])
  = mkLane (baseline_mm lane) (threshold_mm lane) (clearThresh_mm lane)
      (wrap32 (count lane + 1)) LOCKOUT t2 true d2.
Proof.
  induction mids as [| [d t] mids IH]; intros lane Hok Hst Hall Hd2.
  - destruct lane as [b th cl c st ls ok ld]; simpl in *; subst ok st.
    lane_call; [split; reflexivity | lia].
  - simpl in Hall. apply andb_prop in Hall as [Hd Hall].
    apply Z.leb_le in Hd. simpl in Hd.
    assert (Hcall : processLaneReading lane d t lo
                    = (false, set_lastDistance_mm d lane)).
    { destruct lane as [b th cl c st ls ok ld]; simpl in *; subst ok st.
      lane_call; [lia | reflexivity]. }
    simpl. rewrite Hcall; simpl.
    destruct (IH (set_lastDistance_mm d lane) Hok Hst Hall Hd2) as [-> ->].
    split; reflexivity.
Qed.

(** X3: one pass of a ball counts exactly once.  On a healthy idle
    lane, a reading below the detect threshold, then any number of
    readings at or below the clear threshold, then a reading above the
    clear threshold: only the last call returns true, and it leaves the
    lane in LOCKOUT, started at its timestamp, with the count
    incremented once. *)
Theorem one_pass_counts_once lo lane d1 t1 mids d2 t2 :
  sensorOk lane = true -> state lane = IDLE ->
  d1 < threshold_mm lane ->
  forallb (fun r => fst r <=? clearThresh_mm lane) mids = true ->
  clearThresh_mm lane < d2 ->
  counted_flags lo lane ((d1, t1) :: mids ++ [(d2, t2)])
  = false :: replicate (length mids) false ++ [true] /\
  lane_after lo lane ((d1, t1) :: mids ++ [(d2, t2)])
  = mkLane (baseline_mm lane) (threshold_mm lane) (clearThresh_mm lane)
      (wrap32 (count lane + 1)) LOCKOUT t2 true d2.
Proof.
  intros Hok Hst Hd1 Hall Hd2.
  assert (Hcall : processLaneReading lane d1 t1 lo
                  = (false, set_state BALL_PRESENT
                              (set_lastDistance_mm d1 lane))).
  { destruct lane as [b th cl c st ls ok ld]; simpl in *; subst ok st.
    lane_call; [reflexivity | lia]. }
  simpl. rewrite Hcall; simpl.
  destruct (present_until_clear lo d2 t2 mids
              (set_state BALL_PRESENT (set_lastDistance_mm d1 lane))
              Hok eq_refl Hall Hd2) as [-> ->].
  split; reflexivity.
Qed.

Lemma one_pass_counts_once_witness :
  counted_flags 60 (mkLane 500 420 450 0 IDLE 0 true 0)
    ((400, 20) :: [(380, 50); (430, 80); (450, 110)] ++ [(451, 140)])
  = false :: replicate 3 false ++ [true] /\
  lane_after 60 (mkLane 500 420 450 0 IDLE 0 true 0)
    ((400, 20) :: [(380, 50); (430, 80); (450, 110)] ++ [(451, 140)])
  = mkLane 500 420 450 (wrap32 (0 + 1)) LOCKOUT 140 true 451.
Proof.
  exact (one_pass_counts_once 60 (mkLane 500 420 450 0 IDLE 0 true 0)
           400 20 [(380, 50); (430, 80); (450, 110)] 451 140
           eq_refl eq_refl ltac:(simpl; lia) eq_refl ltac:(simpl; lia)).
Defined.

(** X4: no chatter.  In IDLE, readings at or above the detect threshold
    leave the lane in IDLE; in BALL_PRESENT, readings at or below the
    clear threshold leave it in BALL_PRESENT; in both cases, however
    many such readings come, none counts and the count is unchanged.
    So readings inside the band from the detect to the clear threshold
    never move a lane that is in IDLE or BALL_PRESENT. *)
Theorem quiet_readings_change_nothing lo lane rs :
  (state lane = IDLE ->
   forallb (fun r => threshold_mm lane <=? fst r) rs = true ->
   state (lane_after lo lane rs) = IDLE /\
   count (lane_after lo lane rs) = count lane /\
   counted_flags lo lane rs = replicate (length rs) false) /\
  (state lane = BALL_PRESENT ->
   forallb (fun r => fst r <=? clearThresh_mm lane) rs = true ->
   state (lane_after lo lane rs) = BALL_PRESENT /\
   count (lane_after lo lane rs) = count lane /\
   counted_flags lo lane rs = replicate (length rs) false).
Proof.
  split; revert lane;
    (induction rs as [| [d t] rs IH]; intros lane Hst Hall; simpl;
     [auto |]);
    simpl in Hall; apply andb_prop in Hall as [Hd Hall];
    apply Z.leb_le in Hd; simpl in Hd;
    destruct (processLaneReading_frame lane d t lo) as (_ & Hth & Hcl & _).
  - assert (Hcall : state (snd (processLaneReading lane d t lo)) = IDLE /\
                    count (snd (processLaneReading lane d t lo)) = count lane /\
                    fst (processLaneReading lane d t lo) = false).
    { destruct lane as [b th cl c st ls ok ld]; simpl in *; subst st.
      destruct ok; lane_call; auto; lia. }
    destruct Hcall as (Hst' & Hc' & ->).
    destruct (IH _ Hst') as (-> & -> & ->); [rewrite Hth; exact Hall |].
    auto.
  - assert (Hcall : state (snd (processLaneReading lane d t lo))
                    = BALL_PRESENT /\
                    count (snd (processLaneReading lane d t lo)) = count lane /\
                    fst (processLaneReading lane d t lo) = false).
    { destruct lane as [b th cl c st ls ok ld]; simpl in *; subst st.
      destruct ok; lane_call; auto; lia. }
    destruct Hcall as (Hst' & Hc' & ->).
    destruct (IH _ Hst') as (-> & -> & ->); [rewrite Hcl; exact Hall |].
    auto.
Qed.

Lemma quiet_readings_change_nothing_witness :
  state (lane_after 60 (mkLane 500 420 450 3 BALL_PRESENT 0 true 0)
           [(420, 10); (435, 20); (450, 30)]) = BALL_PRESENT /\
  count (lane_after 60 (mkLane 500 420 450 3 BALL_PRESENT 0 true 0)
           [(420, 10); (435, 20); (450, 30)]) = 3 /\
  counted_flags 60 (mkLane 500 420 450 3 BALL_PRESENT 0 true 0)
    [(420, 10); (435, 20); (450, 30)] = [false; false; false].
Proof.
  exact (proj2 (quiet_readings_change_nothing 60
                  (mkLane 500 420 450 3 BALL_PRESENT 0 true 0)
                  [(420, 10); (435, 20); (450, 30)])
               eq_refl eq_refl).
Defined.

(** X5: the lockout lasts exactly the lockout duration.  On a lane in
    LOCKOUT since [lockoutStart], readings whose 32-bit timestamps lie
    in the window from [lockoutStart] up to, but excluding,
    [lockoutStart + lockout_ms] are ignored whatever their distance: the
    lane stays in LOCKOUT with the same start and count, and nothing is
    counted; on a healthy lane the first reading at or after the end of
    the window puts the lane back in IDLE, again without a count. *)
Theorem lockout_lasts_lockout_ms lo lane rs :
  state lane = LOCKOUT -> 0 <= lockoutStart lane ->
  forallb (fun r => (lockoutStart lane <=? snd r)
                    && (snd r <? lockoutStart lane + lo)
                    && (snd r <? 4294967296)) rs = true ->
  (state (lane_after lo lane rs) = LOCKOUT /\
   lockoutStart (lane_after lo lane rs) = lockoutStart lane /\
   count (lane_after lo lane rs) = count lane /\
   counted_flags lo lane rs = replicate (length rs) false) /\
  (forall d t,
     sensorOk lane = true ->
     lockoutStart lane + lo <= t < 4294967296 -> 0 <= lo ->
     state (lane_after lo lane (rs ++ [(d, t)])) = IDLE /\
     count (lane_after lo lane (rs ++ [(d, t)])) = count lane /\
     counted_flags lo lane (rs ++ [(d, t)])
     = replicate (length rs) false ++ [false]).
Proof.
  intros Hst Hls Hall.
  assert (Hwin : state (lane_after lo lane rs) = LOCKOUT /\
                 lockoutStart (lane_after lo lane rs) = lockoutStart lane /\
                 count (lane_after lo lane rs) = count lane /\
                 counted_flags lo lane rs = replicate (length rs) false).
  { revert lane Hst Hls Hall.
    induction rs as [| [d t] rs IH]; intros lane Hst Hls Hall; simpl;
      [auto |].
    simpl in Hall. apply andb_prop in Hall as [Ht Hall].
    apply andb_prop in Ht as [Ht Hmax]. apply andb_prop in Ht as [Hge Hlt].
    apply Z.leb_le in Hge. apply Z.ltb_lt in Hlt. apply Z.ltb_lt in Hmax.
    simpl in Hge, Hlt, Hmax.
    assert (Hcall : state (snd (processLaneReading lane d t lo)) = LOCKOUT /\
                    lockoutStart (snd (processLaneReading lane d t lo))
                    = lockoutStart lane /\
                    count (snd (processLaneReading lane d t lo)) = count lane /\
                    fst (processLaneReading lane d t lo) = false).
    { destruct lane as [b th cl c st ls ok ld]; simpl in *; subst st.
      assert (Hw : wrap32 (t - ls) = t - ls)
        by (unfold wrap32; apply Z.mod_small; lia).
      destruct ok; lane_call; auto; lia. }
    destruct Hcall as (Hst' & Hls' & Hc' & ->).
    destruct (IH _ Hst') as (-> & -> & -> & ->);
      [rewrite Hls'; exact Hls | rewrite Hls'; exact Hall |].
    auto. }
  split; [exact Hwin |].
  intros d t Hok Ht Hlo.
  destruct Hwin as (Hst' & Hls' & Hc' & Hfl).
  rewrite lane_after_app, counted_flags_app, Hfl. simpl.
  destruct (counted_flags_frame lo rs lane) as (_ & _ & Hok').
  rewrite <- Hok' in Hok.
  set (lane' := lane_after lo lane rs) in *.
  destruct lane' as [b th cl c st ls ok ld]; simpl in *; subst st ok ls c.
  assert (Hw : wrap32 (t - lockoutStart lane) = t - lockoutStart lane)
    by (unfold wrap32; apply Z.mod_small; lia).
  lane_call; auto; lia.
Qed.

Lemma lockout_lasts_lockout_ms_witness :
  state (lane_after 60 (mkLane 500 420 450 1 LOCKOUT 40 true 460)
           ([(300, 40); (600, 70); (300, 99)] ++ [(300, 100)])) = IDLE /\
  count (lane_after 60 (mkLane 500 420 450 1 LOCKOUT 40 true 460)
           ([(300, 40); (600, 70); (300, 99)] ++ [(300, 100)])) = 1 /\
  counted_flags 60 (mkLane 500 420 450 1 LOCKOUT 40 true 460)
    ([(300, 40); (600, 70); (300, 99)] ++ [(300, 100)])
  = replicate 3 false ++ [false].
Proof.
  exact (proj2 (lockout_lasts_lockout_ms 60
                  (mkLane 500 420 450 1 LOCKOUT 40 true 460)
                  [(300, 40); (600, 70); (300, 99)]
                  eq_refl ltac:(simpl; lia) eq_refl)
               300 100 eq_refl ltac:(simpl; lia) ltac:(lia)).
Defined.

(** ** One poll of one lane *)

Lemma updateLane_spec ch dist tmo now s lane :
  lanes s !! ch = Some lane ->
  exists s',
    updateLane ch dist tmo now s = Some s' /\
    length (lanes s') = length (lanes s) /\
    (forall k, k <> ch -> lanes s' !! k = lanes s !! k) /\
    lanes s' !! ch
    = Some (if tmo then lane
            else snd (processLaneReading lane dist now LOCKOUT_MS)) /\
    totalCount s'
    = (if negb tmo && fst (processLaneReading lane dist now LOCKOUT_MS)
       then wrap32 (totalCount s + 1) else totalCount s) /\
    countsChanged s'
    = (negb tmo && fst (processLaneReading lane dist now LOCKOUT_MS))
      || countsChanged s /\
    (tmo = true \/ sensorOk lane = false -> s' = s).
Proof.
  intros Hl.
  assert (Hch : (ch < length (lanes s))%nat)
    by (eapply lookup_lt_Some; eassumption).
  unfold updateLane. rewrite Hl.
  destruct (sensorOk lane) eqn:Hok; simpl.
  - destruct tmo; simpl.
    + exists s. repeat split; auto.
    + destruct (processLaneReading lane dist now LOCKOUT_MS)
        as [counted lane'] eqn:Hcall; simpl.
      destruct counted; eexists; (split; [reflexivity |]); simpl;
        (split; [apply length_insert |]);
        (split; [intros k Hk; apply list_lookup_insert_ne; congruence |]);
        (split; [apply list_lookup_insert_eq; exact Hch |]);
        (split; [reflexivity |]);
        (split; [reflexivity |]);
        intros [H | H]; discriminate H.
  - assert (Hcall : processLaneReading lane dist now LOCKOUT_MS
                    = (false, lane))
      by (unfold processLaneReading; rewrite Hok; reflexivity).
    rewrite Hcall; simpl. rewrite andb_false_r.
    exists s. split; [reflexivity |]. split; [reflexivity |].
    split; [reflexivity |].
    split; [rewrite Hl; destruct tmo; reflexivity |].
    split; [reflexivity |]. split; reflexivity.
Qed.

(** X6: a poll of lane [ch] can change lane [ch] only.  The array keeps
    its length and every other lane is untouched; lane [ch] becomes
    what [processLaneReading] makes of it, and the total moves, by one,
    exactly when that call counts; when the read timed out or the
    lane's sensor is not healthy nothing at all changes. *)
Theorem updateLane_touches_one_lane ch dist tmo now s lane :
  lanes s !! ch = Some lane ->
  exists s',
    updateLane ch dist tmo now s = Some s' /\
    length (lanes s') = length (lanes s) /\
    (forall k, k <> ch -> lanes s' !! k = lanes s !! k) /\
    lanes s' !! ch
    = Some (if tmo then lane
            else snd (processLaneReading lane dist now LOCKOUT_MS)) /\
    totalCount s'
    = (if negb tmo && fst (processLaneReading lane dist now LOCKOUT_MS)
       then wrap32 (totalCount s + 1) else totalCount s) /\
    countsChanged s'
    = (negb tmo && fst (processLaneReading lane dist now LOCKOUT_MS))
      || countsChanged s /\
    (tmo = true \/ sensorOk lane = false -> s' = s).
Proof. apply updateLane_spec. Qed.

Lemma updateLane_touches_one_lane_witness :
  exists s',
    updateLane 1 460 false 40
      (mkSystem [mkLane 500 420 450 0 IDLE 0 true 0;
                 mkLane 500 420 450 2 BALL_PRESENT 0 true 400] 2 false)
    = Some s' /\
    lanes s' !! 0%nat = Some (mkLane 500 420 450 0 IDLE 0 true 0) /\
    lanes s' !! 1%nat = Some (mkLane 500 420 450 3 LOCKOUT 40 true 460) /\
    totalCount s' = 3.
Proof.
  destruct (updateLane_touches_one_lane 1 460 false 40
              (mkSystem [mkLane 500 420 450 0 IDLE 0 true 0;
                         mkLane 500 420 450 2 BALL_PRESENT 0 true 400]
                 2 false)
              (mkLane 500 420 450 2 BALL_PRESENT 0 true 400) eq_refl)
    as (s' & Hrun & _ & Hother & Hch & Htot & _ & _).
  exists s'. split; [exact Hrun |]. split; [| split].
  - exact (Hother 0%nat ltac:(lia)).
  - exact Hch.
  - exact Htot.
Defined.

(** ** Reset *)

Lemma idle_enters b th cl c ls ld d t lo :
  d < th ->
  processLaneReading (mkLane b th cl c IDLE ls true ld) d t lo
  = (false, mkLane b th cl c BALL_PRESENT ls true d).
Proof. intros Hd. lane_call; [reflexivity | lia]. Qed.

Lemma present_counts b th cl c ls ld d t lo :
  cl < d ->
  processLaneReading (mkLane b th cl c BALL_PRESENT ls true ld) d t lo
  = (true, mkLane b th cl (wrap32 (c + 1)) LOCKOUT t true d).
Proof. intros Hd. lane_call; [reflexivity | lia]. Qed.

Lemma rearmed_pass lane d1 t1 d2 t2 lo :
  sensorOk lane = true ->
  d1 < threshold_mm lane -> clearThresh_mm lane < d2 ->
  processLaneReading (reset_lane lane) d1 t1 lo
  = (false, mkLane (baseline_mm lane) (threshold_mm lane)
              (clearThresh_mm lane) 0 BALL_PRESENT (lockoutStart lane)
              true d1)
  /\
  processLaneReading
    (mkLane (baseline_mm lane) (threshold_mm lane)
       (clearThresh_mm lane) 0 BALL_PRESENT (lockoutStart lane) true d1)
    d2 t2 lo
  = (true, mkLane (baseline_mm lane) (threshold_mm lane)
             (clearThresh_mm lane) 1 LOCKOUT t2 true d2).
Proof.
  destruct lane as [b th cl c st ls ok ld].
  cbn [sensorOk threshold_mm clearThresh_mm baseline_mm lockoutStart].
  intros -> Hd1 Hd2.
  change (reset_lane (mkLane b th cl c st ls true ld))
    with (mkLane b th cl 0 IDLE ls true ld).
  rewrite (idle_enters b th cl 0 ls ld d1 t1 lo Hd1).
  rewrite (present_counts b th cl 0 ls d1 d2 t2 lo Hd2).
  split; reflexivity.
Qed.

(** X7: the reset cancels a lockout.  Whatever state a healthy lane was
    in, also LOCKOUT with the lockout still running, after a reset
    command a reading below its detect threshold followed by a reading
    above its clear threshold is counted, whatever the timestamps: the
    lane's count and the total are both 1. *)
Theorem reset_rearms s ch lane d1 t1 d2 t2 :
  System_wf s -> lanes s !! ch = Some lane -> sensorOk lane = true ->
  d1 < threshold_mm lane -> clearThresh_mm lane < d2 ->
  exists s' lane',
    run [ResetCommand; Poll ch d1 false t1; Poll ch d2 false t2] s = Some s' /\
    totalCount s' = 1 /\
    lanes s' !! ch = Some lane' /\
    count lane' = 1 /\ state lane' = LOCKOUT /\ lockoutStart lane' = t2.
Proof.
  intros Hwf Hl Hok Hd1 Hd2.
  assert (Hch : (ch < NUM_LANES)%nat)
    by (rewrite <- Hwf; eapply lookup_lt_Some; eassumption).
  unfold run, step, onWsMessage_reset.
  destruct (resetLanes_lookup (lanes s) NUM_LANES (totalCount s))
    as (ls1 & -> & _ & Hk); [rewrite Hwf; lia |].
  assert (Hl1 : ls1 !! ch = Some (reset_lane lane)).
  { rewrite Hk, Hl. destruct (decide (ch < NUM_LANES)%nat); [reflexivity | lia]. }
  destruct (rearmed_pass lane d1 t1 d2 t2 LOCKOUT_MS Hok Hd1 Hd2)
    as [Hc1 Hc2].
  destruct (updateLane_spec ch d1 false t1 (mkSystem ls1 0 true)
              (reset_lane lane) Hl1) as (s2 & -> & _ & _ & Hl2 & Ht2 & _ & _).
  rewrite Hc1 in Hl2, Ht2. simpl in Hl2, Ht2.
  destruct (updateLane_spec ch d2 false t2 s2 _ Hl2)
    as (s3 & -> & _ & _ & Hl3 & Ht3 & _ & _).
  rewrite Hc2 in Hl3, Ht3. simpl in Hl3, Ht3.
  eexists s3, _. split; [reflexivity |].
  split; [rewrite Ht3, Ht2; reflexivity |].
  split; [exact Hl3 |]. repeat split.
Qed.

Lemma reset_rearms_witness :
  exists s' lane',
    run [ResetCommand; Poll 2 400 false 50; Poll 2 460 false 55]
      (mkSystem [calibrated_lane; calibrated_lane;
                 mkLane 500 420 450 9 LOCKOUT 40 true 460;
                 calibrated_lane] 9 false) = Some s' /\
    totalCount s' = 1 /\
    lanes s' !! 2%nat = Some lane' /\
    count lane' = 1 /\ state lane' = LOCKOUT /\ lockoutStart lane' = 55.
Proof.
  exact (reset_rearms
           (mkSystem [calibrated_lane; calibrated_lane;
                      mkLane 500 420 450 9 LOCKOUT 40 true 460;
                      calibrated_lane] 9 false)
           2 (mkLane 500 420 450 9 LOCKOUT 40 true 460) 400 50 460 55
           eq_refl eq_refl eq_refl ltac:(simpl; lia) ltac:(simpl; lia)).
Defined.

(** X8: [resetLanes] called with fewer lanes than the array holds
    resets that prefix only: the lanes from index [num_lanes] on keep
    every field, their count included, while the total is put to zero
    all the same. *)
Theorem resetLanes_covers_prefix (ls : list Lane) num_lanes total :
  (num_lanes <= length ls)%nat ->
  exists ls',
    resetLanes ls num_lanes total = Some (ls', 0) /\
    length ls' = length ls /\
    (forall k, (num_lanes <= k)%nat -> ls' !! k = ls !! k) /\
    (forall k l, (k < num_lanes)%nat -> ls !! k = Some l ->
       ls' !! k = Some (set_state IDLE (set_count 0 l))).
Proof.
  intros Hlen.
  destruct (resetLanes_lookup ls num_lanes total Hlen)
    as (ls' & Hr & Hlen' & Hk).
  exists ls'. split; [exact Hr |]. split; [exact Hlen' |]. split.
  - intros k Hge. rewrite Hk.
    destruct (decide (k < num_lanes)%nat); [lia | reflexivity].
  - intros k l Hlt Hl. rewrite Hk, Hl.
    destruct (decide (k < num_lanes)%nat); [reflexivity | lia].
Qed.

Lemma resetLanes_covers_prefix_witness :
  exists ls',
    resetLanes [mkLane 500 420 450 1 LOCKOUT 40 true 460;
                mkLane 300 220 250 7 BALL_PRESENT 9 true 210] 1 8
    = Some (ls', 0) /\
    ls' !! 1%nat = Some (mkLane 300 220 250 7 BALL_PRESENT 9 true 210).
Proof.
  destruct (resetLanes_covers_prefix
              [mkLane 500 420 450 1 LOCKOUT 40 true 460;
               mkLane 300 220 250 7 BALL_PRESENT 9 true 210] 1 8
              ltac:(simpl; lia)) as (ls' & Hr & _ & Hk & _).
  exists ls'. split; [exact Hr |].
  exact (Hk 1%nat ltac:(lia)).
Defined.

(** ** Thresholds in range *)

(** X9: when the detection delta does not exceed the baseline and the
    clear threshold fits 16 bits, [calculateThresholds] stores the
    baseline, baseline - delta and baseline - delta + hysteresis
    exactly, so detect <= clear and detect <= baseline; it writes no
    other member of the lane. *)
Theorem thresholds_exact_in_range lane baseline delta hyst :
  is_u16 baseline -> 0 <= delta <= baseline -> 0 <= hyst ->
  baseline - delta + hyst < 65536 ->
  let lane' := calculateThresholds lane baseline delta hyst in
  baseline_mm lane' = baseline /\
  threshold_mm lane' = baseline - delta /\
  clearThresh_mm lane' = baseline - delta + hyst /\
  threshold_mm lane' <= clearThresh_mm lane' /\
  threshold_mm lane' <= baseline_mm lane' /\
  count lane' = count lane /\ state lane' = state lane /\
  lockoutStart lane' = lockoutStart lane /\
  sensorOk lane' = sensorOk lane /\
  lastDistance_mm lane' = lastDistance_mm lane.
Proof.
  unfold is_u16; intros Hb Hd Hh Hfit; simpl.
  rewrite (wrap16_small (baseline - delta)) by lia.
  rewrite (wrap16_small (baseline - delta + hyst)) by lia.
  repeat split; lia.
Qed.

Lemma thresholds_exact_in_range_witness :
  let lane' := calculateThresholds (mkLane 0 0 0 5 LOCKOUT 9 true 77)
                 1200 80 30 in
  threshold_mm lane' = 1200 - 80 /\ clearThresh_mm lane' = 1200 - 80 + 30.
Proof.
  destruct (thresholds_exact_in_range (mkLane 0 0 0 5 LOCKOUT 9 true 77)
              1200 80 30 ltac:(unfold is_u16; lia) ltac:(lia) ltac:(lia)
              ltac:(lia)) as (_ & Hth & Hcl & _).
  exact (conj Hth Hcl).
Defined.

(** ** Calibration *)

Lemma valid_from_step read s todo :
  valid_from read s (S todo)
  = if sample_valid (read s)
    then fst (read s) :: valid_from read (S s) todo
    else valid_from read (S s) todo.
Proof.
  unfold valid_from. simpl. destruct (sample_valid (read s)); reflexivity.
Qed.

Lemma valid_from_range read s todo :
  (forall k, 0 <= fst (read k)) ->
  Forall (fun d => 0 <= d <= 7999) (valid_from read s todo).
Proof.
  intros Hnn. revert s. induction todo as [| todo IH]; intros s.
  - constructor.
  - rewrite valid_from_step.
    destruct (sample_valid (read s)) eqn:Hv; [| apply IH].
    constructor; [| apply IH].
    unfold sample_valid in Hv. apply andb_prop in Hv as [_ Hv].
    apply Z.ltb_lt in Hv. specialize (Hnn s). lia.
Qed.

Lemma valid_from_length read s todo :
  (length (valid_from read s todo) <= todo)%nat.
Proof.
  revert s. induction todo as [| todo IH]; intros s; [simpl; lia |].
  rewrite valid_from_step. specialize (IH (S s)).
  destruct (sample_valid (read s)); simpl; lia.
Qed.

Lemma sum_Z_bounds a b zs :
  Forall (fun d => a <= d <= b) zs ->
  a * Z.of_nat (length zs) <= sum_Z zs <= b * Z.of_nat (length zs).
Proof.
  induction 1 as [| d zs Hd _ IH]; simpl length; simpl sum_Z; [lia |].
  rewrite Nat2Z.inj_succ. lia.
Qed.

(** The sample loop counts the valid readings, and adds them up without
    overflow when none is negative. *)
Lemma calib_samples_good read : forall todo s sum good,
  0 <= good -> good + Z.of_nat todo < 256 ->
  snd (calib_samples todo s read sum good)
  = good + Z.of_nat (length (valid_from read s todo)).
Proof.
  induction todo as [| todo IH]; intros s sum good Hg Hfit.
  - simpl. lia.
  - rewrite valid_from_step. cbn [calib_samples].
    unfold sample_valid. destruct (read s) as [d tmo]; simpl fst; simpl snd.
    destruct (negb tmo && (d <? 8000)).
    + rewrite IH; unfold wrap8; rewrite Z.mod_small by lia;
        simpl length; lia.
    + rewrite IH by lia. reflexivity.
Qed.

Lemma calib_samples_sum read :
  (forall k, 0 <= fst (read k)) ->
  forall todo s sum good,
  0 <= sum -> sum + 8000 * Z.of_nat todo < 4294967296 ->
  fst (calib_samples todo s read sum good)
  = sum + sum_Z (valid_from read s todo).
Proof.
  intros Hnn. induction todo as [| todo IH]; intros s sum good Hs Hfit.
  - simpl. lia.
  - rewrite valid_from_step. cbn [calib_samples].
    unfold sample_valid. pose proof (Hnn s) as Hd.
    destruct (read s) as [d tmo]; simpl fst in *; simpl snd.
    destruct (negb tmo && (d <? 8000)) eqn:Hv.
    + apply andb_prop in Hv as [_ Hlt]. apply Z.ltb_lt in Hlt.
      unfold wrap32. rewrite Z.mod_small by lia.
      rewrite IH by lia. simpl sum_Z. lia.
    + rewrite IH by lia. reflexivity.
Qed.

Lemma calibrate_lane_cases read lane :
  calibrate_lane read lane
  = if negb (sensorOk lane) then lane
    else if (0 <? Z.of_nat (length (valid_readings read)))
    then calculateThresholds lane
           (wrap16 (fst (calib_samples CALIB_SAMPLES 0 read 0 0)
                    / Z.of_nat (length (valid_readings read))))
           DETECTION_DELTA_MM CLEAR_HYSTERESIS_MM
    else set_sensorOk false lane.
Proof.
  unfold calibrate_lane, valid_readings.
  destruct (negb (sensorOk lane)); [reflexivity |].
  pose proof (calib_samples_good read CALIB_SAMPLES 0 0 0
                ltac:(lia) ltac:(reflexivity)) as Hg.
  rewrite Z.add_0_l in Hg.
  destruct (calib_samples CALIB_SAMPLES 0 read 0 0) as [sum good].
  cbn [fst snd] in *. rewrite Z.gtb_ltb, Hg. reflexivity.
Qed.

Lemma calibrate_lane_baseline read lane :
  sensorOk lane = true ->
  (forall k, 0 <= fst (read k)) ->
  valid_readings read <> [] ->
  calibrate_lane read lane
  = calculateThresholds lane
      (sum_Z (valid_readings read) / Z.of_nat (length (valid_readings read)))
      DETECTION_DELTA_MM CLEAR_HYSTERESIS_MM /\
  forall a b, Forall (fun d => a <= d <= b) (valid_readings read) ->
    a <= sum_Z (valid_readings read) / Z.of_nat (length (valid_readings read))
      <= b.
Proof.
  intros Hok Hnn Hne.
  assert (Hlen : 0 < Z.of_nat (length (valid_readings read)))
    by (destruct (valid_readings read); [congruence | simpl; lia]).
  assert (Hmean : forall a b,
            Forall (fun d => a <= d <= b) (valid_readings read) ->
            a <= sum_Z (valid_readings read)
                 / Z.of_nat (length (valid_readings read)) <= b).
  { intros a b Hab. apply sum_Z_bounds in Hab. split.
    - apply Z.div_le_lower_bound; lia.
    - apply Z.div_le_upper_bound; lia. }
  split; [| exact Hmean].
  assert (H07 : 0 <= sum_Z (valid_readings read)
                     / Z.of_nat (length (valid_readings read)) <= 7999).
  { apply Hmean. exact (valid_from_range read 0 CALIB_SAMPLES Hnn). }
  assert (Hsum : fst (calib_samples CALIB_SAMPLES 0 read 0 0)
                 = sum_Z (valid_readings read)).
  { unfold valid_readings.
    rewrite (calib_samples_sum read Hnn) by (unfold CALIB_SAMPLES; lia).
    rewrite Z.add_0_l. reflexivity. }
  rewrite calibrate_lane_cases, Hok, Hsum. simpl negb. cbv iota.
  destruct (Z.ltb_spec 0 (Z.of_nat (length (valid_readings read)))); [| lia].
  rewrite wrap16_small by lia. reflexivity.
Qed.

Lemma calculateThresholds_frame lane baseline delta hyst :
  count (calculateThresholds lane baseline delta hyst) = count lane /\
  state (calculateThresholds lane baseline delta hyst) = state lane /\
  lockoutStart (calculateThresholds lane baseline delta hyst)
  = lockoutStart lane /\
  sensorOk (calculateThresholds lane baseline delta hyst) = sensorOk lane /\
  lastDistance_mm (calculateThresholds lane baseline delta hyst)
  = lastDistance_mm lane.
Proof. repeat split. Qed.

Lemma calibration_baseline_bounds read lane :
  sensorOk lane = true ->
  (forall k, 0 <= fst (read k)) ->
  valid_readings read <> [] ->
  exists m,
    calibrate_lane read lane
    = calculateThresholds lane m DETECTION_DELTA_MM CLEAR_HYSTERESIS_MM /\
    0 <= m < 8000.
Proof.
  intros Hok Hnn Hne.
  destruct (calibrate_lane_baseline read lane Hok Hnn Hne) as [Heq Hmean].
  eexists. split; [exact Heq |].
  assert (H : 0 <= sum_Z (valid_readings read)
                   / Z.of_nat (length (valid_readings read)) <= 7999).
  { apply Hmean.
    exact (valid_from_range read 0 CALIB_SAMPLES Hnn). }
  lia.
Qed.

(** X10: the calibrated baseline is the mean of the valid samples.  On
    a healthy lane with at least one reading that did not time out and
    is below 8000, the 20-sample loop of [calibrateBaselines] overflows
    neither its sum nor its counter: the baseline stored is the sum of
    the valid readings divided (rounding down) by their number, it lies
    between any bounds the valid readings lie between, so below 8000,
    and the lane stays healthy. *)
Theorem calibration_baseline_is_mean read lane :
  sensorOk lane = true ->
  (forall k, 0 <= fst (read k)) ->
  valid_readings read <> [] ->
  let lane' := calibrate_lane read lane in
  baseline_mm lane'
  = sum_Z (valid_readings read) / Z.of_nat (length (valid_readings read)) /\
  (forall a b, Forall (fun d => a <= d <= b) (valid_readings read) ->
     a <= baseline_mm lane' <= b) /\
  0 <= baseline_mm lane' < 8000 /\
  sensorOk lane' = true.
Proof.
  intros Hok Hnn Hne lane'.
  destruct (calibrate_lane_baseline read lane Hok Hnn Hne) as [Heq Hmean].
  subst lane'. rewrite Heq. simpl.
  split; [reflexivity |]. split; [exact Hmean |]. split; [| exact Hok].
  assert (H : 0 <= sum_Z (valid_readings read)
                   / Z.of_nat (length (valid_readings read)) <= 7999).
  { apply Hmean.
    exact (valid_from_range read 0 CALIB_SAMPLES Hnn). }
  lia.
Qed.

Lemma calibration_baseline_is_mean_witness :
  baseline_mm
    (calibrate_lane
       (fun k => (500 + Z.of_nat k, Nat.even k))
       (set_sensorOk true Lane_default))
  = sum_Z (valid_readings (fun k => (500 + Z.of_nat k, Nat.even k)))
    / Z.of_nat (length (valid_readings
                          (fun k => (500 + Z.of_nat k, Nat.even k)))).
Proof.
  exact (proj1 (calibration_baseline_is_mean
                  (fun k => (500 + Z.of_nat k, Nat.even k))
                  (set_sensorOk true Lane_default)
                  eq_refl
                  ltac:(intros k; simpl; lia)
                  ltac:(vm_compute; discriminate))).
Defined.

Example calibration_mean_value :
  calibrate_lane (fun k => (500 + Z.of_nat k, Nat.even k))
    (set_sensorOk true Lane_default)
  = mkLane 510 430 460 0 IDLE 0 true 0.
Proof. reflexivity. Qed.

(** X11: the thresholds a calibration leaves.  With the constants of
    [main.cpp] (delta 80, hysteresis 30), a successful calibration whose
    baseline is at least 80 sets the detect threshold 80 below and the
    clear threshold 50 below the baseline, so
    0 <= detect < clear < baseline.  When the baseline is below 80 the
    detect threshold has wrapped around to baseline + 65456, which is
    above every valid reading. *)
Theorem calibration_thresholds read lane :
  sensorOk lane = true ->
  (forall k, 0 <= fst (read k)) ->
  valid_readings read <> [] ->
  let lane' := calibrate_lane read lane in
  (80 <= baseline_mm lane' ->
     threshold_mm lane' = baseline_mm lane' - 80 /\
     clearThresh_mm lane' = baseline_mm lane' - 50 /\
     0 <= threshold_mm lane' < clearThresh_mm lane' /\
     clearThresh_mm lane' < baseline_mm lane') /\
  (baseline_mm lane' < 80 ->
     threshold_mm lane' = baseline_mm lane' + 65456 /\
     forall d, d < 8000 -> d < threshold_mm lane').
Proof.
  intros Hok Hnn Hne lane'.
  destruct (calibration_baseline_bounds read lane Hok Hnn Hne)
    as (m & Heq & Hm).
  subst lane'. rewrite Heq.
  unfold DETECTION_DELTA_MM, CLEAR_HYSTERESIS_MM. simpl. split; intros Hb.
  - rewrite (wrap16_small (m - 80)) by lia.
    rewrite (wrap16_small (m - 80 + 30)) by lia. lia.
  - rewrite (wrap16_below (m - 80)) by lia. split; [lia |]. intros d Hd. lia.
Qed.

Lemma calibration_thresholds_witness :
  let lane' := calibrate_lane (fun k => (500 + Z.of_nat k, Nat.even k))
                 (set_sensorOk true Lane_default) in
  threshold_mm lane' = baseline_mm lane' - 80 /\
  clearThresh_mm lane' = baseline_mm lane' - 50 /\
  0 <= threshold_mm lane' < clearThresh_mm lane' /\
  clearThresh_mm lane' < baseline_mm lane'.
Proof.
  exact (proj1 (calibration_thresholds
                  (fun k => (500 + Z.of_nat k, Nat.even k))
                  (set_sensorOk true Lane_default)
                  eq_refl
                  ltac:(intros k; simpl; lia)
                  ltac:(vm_compute; discriminate))
               ltac:(vm_compute; discriminate)).
Defined.

Lemma calibrate_lane_outcome read lane :
  let lane' := calibrate_lane read lane in
  (sensorOk lane = false -> lane' = lane) /\
  (sensorOk lane = true -> valid_readings read = [] ->
     lane' = set_sensorOk false lane) /\
  (sensorOk lane' = true ->
     sensorOk lane = true /\ valid_readings read <> []) /\
  count lane' = count lane /\ state lane' = state lane /\
  lockoutStart lane' = lockoutStart lane /\
  lastDistance_mm lane' = lastDistance_mm lane.
Proof.
  intros lane'. subst lane'. rewrite calibrate_lane_cases.
  destruct (sensorOk lane) eqn:Hok; simpl negb; cbv iota.
  - destruct (valid_readings read) as [| v vs] eqn:Hv.
    + change (0 <? Z.of_nat (length (@nil Z))) with false. cbv iota.
      repeat split; try discriminate; congruence.
    + cbn [length]. rewrite Nat2Z.inj_succ.
      destruct (Z.ltb_spec 0 (Z.succ (Z.of_nat (length vs)))); [| lia].
      destruct (calculateThresholds_frame lane
                  (wrap16 (fst (calib_samples CALIB_SAMPLES 0 read 0 0)
                           / Z.succ (Z.of_nat (length vs))))
                  DETECTION_DELTA_MM CLEAR_HYSTERESIS_MM)
        as (-> & -> & -> & -> & ->).
      repeat split; try discriminate; congruence.
  - repeat split; try discriminate; congruence.
Qed.

(** X12: what calibration never does.  It skips a lane whose sensor is
    not healthy, so it never makes a lane healthy; with no valid sample
    it clears the health flag and writes nothing else, thresholds
    included; and in every case it leaves count, state, lockout start
    and last distance alone. *)
Theorem calibration_failure_and_frame read lane :
  let lane' := calibrate_lane read lane in
  (sensorOk lane = false -> lane' = lane) /\
  (sensorOk lane = true -> valid_readings read = [] ->
     lane' = set_sensorOk false lane) /\
  (sensorOk lane' = true ->
     sensorOk lane = true /\ valid_readings read <> []) /\
  count lane' = count lane /\ state lane' = state lane /\
  lockoutStart lane' = lockoutStart lane /\
  lastDistance_mm lane' = lastDistance_mm lane.
Proof. apply calibrate_lane_outcome. Qed.

Lemma calibration_failure_and_frame_witness :
  calibrate_lane (fun k => (8190, false)) (mkLane 500 420 450 3 IDLE 0 true 9)
  = set_sensorOk false (mkLane 500 420 450 3 IDLE 0 true 9).
Proof.
  exact (proj1 (proj2 (calibration_failure_and_frame
                         (fun k => (8190, false))
                         (mkLane 500 420 450 3 IDLE 0 true 9)))
               eq_refl eq_refl).
Defined.

(** ** Start-up *)

Lemma for_lanes_lookup body todo : forall ch (ls : list Lane),
  (ch + todo <= length ls)%nat ->
  exists ls',
    for_lanes body todo ch ls = Some ls' /\
    length ls' = length ls /\
    forall k,
      ls' !! k = if decide (ch <= k < ch + todo)%nat
                 then body k <$> ls !! k else ls !! k.
Proof.
  induction todo as [| todo IH]; intros ch ls Hlen; simpl.
  - exists ls. repeat split. intros k.
    destruct (decide (ch <= k < ch + 0)%nat); [lia | reflexivity].
  - destruct (lookup_lt_is_Some_2 ls ch ltac:(lia)) as [l Hl].
    rewrite Hl.
    destruct (IH (S ch) (<[ch := body ch l]> ls)) as (ls' & Hrun & Hlen' & Hk).
    { rewrite length_insert. lia. }
    exists ls'. split; [exact Hrun |].
    split; [rewrite Hlen'; apply length_insert |].
    intros k. rewrite Hk.
    destruct (decide (k = ch)) as [-> | Hne].
    + rewrite list_lookup_insert_eq by lia. rewrite Hl.
      destruct (decide (S ch <= ch < S ch + todo)%nat); [lia |].
      destruct (decide (ch <= ch < ch + S todo)%nat); [reflexivity | lia].
    + rewrite list_lookup_insert_ne by congruence.
      destruct (decide (S ch <= k < S ch + todo)%nat),
               (decide (ch <= k < ch + S todo)%nat); try reflexivity; lia.
Qed.

Lemma for_all_lanes body (ls : list Lane) :
  length ls = NUM_LANES ->
  exists ls',
    for_lanes body NUM_LANES 0 ls = Some ls' /\
    length ls' = NUM_LANES /\
    forall k, ls' !! k = body k <$> ls !! k.
Proof.
  intros Hlen.
  destruct (for_lanes_lookup body NUM_LANES 0 ls ltac:(lia))
    as (ls' & Hrun & Hlen' & Hk).
  exists ls'. split; [exact Hrun |]. split; [congruence |].
  intros k. rewrite Hk.
  destruct (decide (0 <= k < 0 + NUM_LANES)%nat); [reflexivity |].
  rewrite (lookup_ge_None_2 ls k) by lia. reflexivity.
Qed.

Lemma setup_sensors_spec init sensor s :
  System_wf s ->
  exists s',
    setup_sensors init sensor s = Some s' /\
    System_wf s' /\ totalCount s' = totalCount s /\
    forall k,
      lanes s' !! k
      = (fun lane => calibrate_lane (sensor k) (initSensors_lane (init k) lane))
        <$> lanes s !! k.
Proof.
  intros Hwf. unfold setup_sensors, initSensors, calibrateBaselines.
  destruct (for_all_lanes (fun ch => initSensors_lane (init ch)) (lanes s) Hwf)
    as (ls1 & -> & Hlen1 & Hk1).
  cbn [lanes totalCount countsChanged].
  destruct (for_all_lanes (fun ch => calibrate_lane (sensor ch)) ls1 Hlen1)
    as (ls2 & -> & Hlen2 & Hk2).
  eexists. split; [reflexivity |]. split; [exact Hlen2 |].
  split; [reflexivity |].
  intros k. cbn [lanes]. rewrite Hk2, Hk1.
  destruct (lanes s !! k); reflexivity.
Qed.

Lemma setup_lane_outcome init_ok read :
  let lane := calibrate_lane read (initSensors_lane init_ok Lane_default) in
  count lane = 0 /\ state lane = IDLE /\
  (sensorOk lane = true <-> init_ok = true /\ valid_readings read <> []) /\
  (sensorOk lane = false ->
     baseline_mm lane = 0 /\ threshold_mm lane = 0 /\ clearThresh_mm lane = 0).
Proof.
  intros lane.
  destruct (calibrate_lane_outcome read (initSensors_lane init_ok Lane_default))
    as (Hskip & Hfail & Hrev & Hc & Hst & _).
  fold lane in Hskip, Hfail, Hrev, Hc, Hst.
  split; [rewrite Hc; destruct init_ok; reflexivity |].
  split; [rewrite Hst; destruct init_ok; reflexivity |].
  destruct init_ok.
  - destruct (valid_readings read) as [| v vs] eqn:Hv.
    + rewrite (Hfail eq_refl eq_refl). simpl. split.
      * split; [intros H; discriminate H | intros [_ H]; congruence].
      * auto.
    + assert (Hok : sensorOk lane = true).
      { subst lane. rewrite calibrate_lane_cases.
        rewrite Hv. reflexivity. }
      rewrite Hok. split; [| intros H; discriminate H].
      split; [intros _; split; [reflexivity | discriminate] | reflexivity].
  - rewrite (Hskip eq_refl). simpl. split; [| auto].
    split; [intros H; discriminate H | intros [H _]; discriminate H].
Qed.

(** X13: what start-up leaves.  From the initial globals, whatever the
    sensors answer, [initSensors] followed by [calibrateBaselines] runs
    through and leaves four lanes, a total of 0, and every lane at
    count 0 in IDLE; a lane is healthy exactly when its sensor
    initialised and gave at least one valid calibration sample, and
    every other lane still has baseline and thresholds at 0. *)
Theorem setup_outcome init sensor :
  exists s,
    setup_sensors init sensor power_on = Some s /\
    System_wf s /\ totalCount s = 0 /\
    forall ch, (ch < NUM_LANES)%nat ->
      exists lane,
        lanes s !! ch = Some lane /\
        count lane = 0 /\ state lane = IDLE /\
        (sensorOk lane = true <->
           init ch = true /\ valid_readings (sensor ch) <> []) /\
        (sensorOk lane = false ->
           baseline_mm lane = 0 /\ threshold_mm lane = 0 /\
           clearThresh_mm lane = 0).
Proof.
  destruct (setup_sensors_spec init sensor power_on eq_refl)
    as (s & Hrun & Hwf & Htot & Hk).
  exists s. split; [exact Hrun |]. split; [exact Hwf |].
  split; [exact Htot |].
  intros ch Hch. eexists. split.
  - rewrite Hk. unfold power_on. cbn [lanes].
    rewrite lookup_replicate_2 by exact Hch. reflexivity.
  - apply setup_lane_outcome.
Qed.

Lemma setup_outcome_witness :
  exists s,
    setup_sensors (fun ch => Nat.eqb ch 1 || Nat.eqb ch 2)
      (fun ch s => (300 * Z.of_nat ch + Z.of_nat s, Nat.eqb ch 2))
      power_on = Some s /\
    exists lane,
      lanes s !! 1%nat = Some lane /\ count lane = 0 /\ state lane = IDLE.
Proof.
  destruct (setup_outcome (fun ch => Nat.eqb ch 1 || Nat.eqb ch 2)
              (fun ch s => (300 * Z.of_nat ch + Z.of_nat s, Nat.eqb ch 2)))
    as (s & Hrun & _ & _ & Hlanes).
  exists s. split; [exact Hrun |].
  destruct (Hlanes 1%nat ltac:(unfold NUM_LANES, FC_NUM_LANES; lia))
    as (lane & Hl & Hc & Hst & _).
  exists lane. exact (conj Hl (conj Hc Hst)).
Defined.

Example setup_example :
  setup_sensors (fun ch => Nat.eqb ch 1 || Nat.eqb ch 2)
    (fun ch s => (300 * Z.of_nat ch + Z.of_nat s, Nat.eqb ch 2))
    power_on
  = Some (mkSystem
            [Lane_default;
             mkLane 309 229 259 0 IDLE 0 true 0;
             Lane_default;
             Lane_default] 0 true).
Proof. reflexivity. Qed.

(** X14: from power-on the total always matches the lanes.  Whatever
    the sensors answer during start-up, and whatever polls of the four
    lanes and reset commands follow, the run goes through and ends with
    the total equal to the sum of the lane counts modulo 2^32. *)
Theorem counters_consistent_from_power_on init sensor evs :
  forallb Event_in_bounds evs = true ->
  exists s s',
    setup_sensors init sensor power_on = Some s /\
    run evs s = Some s' /\
    totalCount s' = wrap32 (sum_counts (lanes s')).
Proof.
  intros Hin.
  destruct (setup_sensors_spec init sensor power_on eq_refl)
    as (s & Hrun & Hwf & Htot & Hk).
  assert (Hinv : total_matches s).
  { unfold total_matches. rewrite Htot.
    rewrite sum_counts_all_zero; [reflexivity |].
    intros k l Hl. rewrite Hk in Hl.
    destruct (lanes power_on !! k) as [l0 |] eqn:Hl0; [| discriminate].
    unfold power_on in Hl0. cbn [lanes] in Hl0.
    apply lookup_replicate_1 in Hl0 as [-> _].
    injection Hl as <-. apply setup_lane_outcome. }
  destruct (run_preserves evs s Hwf Hin Hinv) as (s' & Hrun' & _ & Hinv').
  exists s, s'. auto.
Qed.

Lemma counters_consistent_from_power_on_witness :
  exists s s',
    setup_sensors (fun _ => true) (fun _ _ => (500, false)) power_on = Some s /\
    run (ball_pass 0 10 ++ [ResetCommand] ++ ball_pass 3 190) s = Some s' /\
    totalCount s' = wrap32 (sum_counts (lanes s')).
Proof.
  exact (counters_consistent_from_power_on (fun _ => true)
           (fun _ _ => (500, false))
           (ball_pass 0 10 ++ [ResetCommand] ++ ball_pass 3 190) eq_refl).
Defined.

Example setup_gives_fresh_system :
  setup_sensors (fun _ => true) (fun _ _ => (500, false)) power_on
  = Some fresh_system.
Proof. reflexivity. Qed.

(** ** The polling loop *)

Lemma counted_events_pos_cons f fs :
  (0 <? counted_events (f :: fs)) = f || (0 <? counted_events fs).
Proof.
  pose proof (counted_events_bounds fs) as Hb. cbn [counted_events].
  destruct f; simpl orb.
  - apply Z.ltb_lt. lia.
  - reflexivity.
Qed.

Lemma poll_lanes_spec input todo : forall ch s,
  (ch + todo <= length (lanes s))%nat -> is_u32 (totalCount s) ->
  exists s',
    poll_lanes todo ch input s = Some s' /\
    length (lanes s') = length (lanes s) /\
    (forall k,
       lanes s' !! k
       = if decide (ch <= k < ch + todo)%nat
         then lane_polled (input k) <$> lanes s !! k else lanes s !! k) /\
    totalCount s'
    = wrap32 (totalCount s
              + counted_events (map (poll_counts input s) (seq ch todo))) /\
    countsChanged s'
    = (0 <? counted_events (map (poll_counts input s) (seq ch todo)))
      || countsChanged s.
Proof.
  induction todo as [| todo IH]; intros ch s Hlen Ht.
  - exists s. simpl. repeat split.
    + intros k. destruct (decide (ch <= k < ch + 0)%nat); [lia | reflexivity].
    + rewrite Z.add_0_r. unfold wrap32, is_u32 in *.
      symmetry. apply Z.mod_small. exact Ht.
  - destruct (lookup_lt_is_Some_2 (lanes s) ch ltac:(lia)) as [lane Hl].
    cbn [poll_lanes]. destruct (input ch) as [[d tmo] now] eqn:Hin.
    destruct (updateLane_spec ch d tmo now s lane Hl)
      as (s1 & -> & Hlen1 & Hother & Hsame & Htot & Hflag & _).
    destruct (IH (S ch) s1) as (s' & -> & Hlen' & Hk & Htot' & Hflag').
    { rewrite Hlen1. lia. }
    { rewrite Htot. destruct (negb tmo && _); [apply wrap32_u32 | exact Ht]. }
    assert (Hflags : map (poll_counts input s1) (seq (S ch) todo)
                     = map (poll_counts input s) (seq (S ch) todo)).
    { apply map_ext_in. intros k Hk'. apply in_seq in Hk'.
      unfold poll_counts. rewrite (Hother k ltac:(lia)). reflexivity. }
    assert (Hhead : poll_counts input s ch
                    = negb tmo
                      && fst (processLaneReading lane d now LOCKOUT_MS)).
    { unfold poll_counts. rewrite Hl, Hin. reflexivity. }
    exists s'. split; [reflexivity |]. split; [congruence |].
    split; [| split].
    + intros k. rewrite Hk.
      destruct (decide (k = ch)) as [-> | Hne].
      * destruct (decide (S ch <= ch < S ch + todo)%nat); [lia |].
        destruct (decide (ch <= ch < ch + S todo)%nat); [| lia].
        rewrite Hsame, Hl. unfold lane_polled. rewrite Hin. reflexivity.
      * rewrite (Hother k Hne).
        destruct (decide (S ch <= k < S ch + todo)%nat),
                 (decide (ch <= k < ch + S todo)%nat); try reflexivity; lia.
    + rewrite Htot'. cbn [seq map counted_events].
      rewrite Hflags, Htot, Hhead.
      destruct (negb tmo && fst (processLaneReading lane d now LOCKOUT_MS)).
      * unfold wrap32. rewrite Zplus_mod_idemp_l. f_equal. lia.
      * f_equal.
    + rewrite Hflag'. cbn [seq map].
      rewrite counted_events_pos_cons, Hflags, Hflag, Hhead.
      destruct (negb tmo && fst (processLaneReading lane d now LOCKOUT_MS)),
               (0 <? counted_events
                       (map (poll_counts input s) (seq (S ch) todo))),
               (countsChanged s); reflexivity.
Qed.

(** X15: one round of polling treats the four lanes independently.
    From four lanes and a 32-bit total, the loop over the lanes runs
    through; each lane ends as its own poll alone makes it (unchanged
    on a timeout, otherwise what [processLaneReading] returns for its
    own reading), whatever the other lanes read; and the total advances,
    modulo 2^32, by the number of lanes whose poll counted, at most
    four. *)
Theorem poll_round_is_lanewise input s :
  System_wf s -> is_u32 (totalCount s) ->
  let n := counted_events (map (poll_counts input s) (seq 0 NUM_LANES)) in
  exists s',
    poll_lanes NUM_LANES 0 input s = Some s' /\
    System_wf s' /\
    (forall ch lane, lanes s !! ch = Some lane ->
       lanes s' !! ch = Some (lane_polled (input ch) lane)) /\
    totalCount s' = wrap32 (totalCount s + n) /\
    0 <= n <= 4.
Proof.
  intros Hwf Ht n.
  destruct (poll_lanes_spec input NUM_LANES 0 s)
    as (s' & Hrun & Hlen & Hk & Htot & _);
    [rewrite Hwf; lia | exact Ht |].
  exists s'. split; [exact Hrun |]. split; [unfold System_wf in *; congruence |].
  split; [| split; [exact Htot |]].
  - intros ch lane Hl. rewrite Hk, Hl.
    apply lookup_lt_Some in Hl. rewrite Hwf in Hl.
    destruct (decide (0 <= ch < 0 + NUM_LANES)%nat); [reflexivity | lia].
  - subst n.
    pose proof (counted_events_bounds
                  (map (poll_counts input s) (seq 0 NUM_LANES))) as Hb.
    rewrite length_map, length_seq in Hb.
    change (Z.of_nat NUM_LANES) with 4 in Hb. exact Hb.
Qed.

Lemma poll_round_is_lanewise_witness :
  exists s',
    poll_lanes NUM_LANES 0
      (fun ch => (400 + 20 * Z.of_nat ch, Nat.eqb ch 0, 1000 + Z.of_nat ch))
      (mkSystem [calibrated_lane;
                 mkLane 500 420 450 0 BALL_PRESENT 0 true 400;
                 mkLane 500 420 450 5 LOCKOUT 900 true 460;
                 mkLane 500 420 450 1 BALL_PRESENT 0 true 400] 6 false)
    = Some s' /\
    lanes s' !! 3%nat = Some (mkLane 500 420 450 2 LOCKOUT 1003 true 460) /\
    totalCount s' = wrap32 (6 + 1).
Proof.
  destruct (poll_round_is_lanewise
              (fun ch => (400 + 20 * Z.of_nat ch, Nat.eqb ch 0,
                          1000 + Z.of_nat ch))
              (mkSystem [calibrated_lane;
                         mkLane 500 420 450 0 BALL_PRESENT 0 true 400;
                         mkLane 500 420 450 5 LOCKOUT 900 true 460;
                         mkLane 500 420 450 1 BALL_PRESENT 0 true 400]
                 6 false)
              eq_refl ltac:(unfold is_u32; simpl; lia))
    as (s' & Hrun & _ & Hlanes & Htot & _).
  exists s'. split; [exact Hrun |]. split; [| exact Htot].
  exact (Hlanes 3%nat (mkLane 500 420 450 1 BALL_PRESENT 0 true 400) eq_refl).
Defined.

(** ** The broadcast throttle *)

(** A pass whose timestamp is not before the last broadcast either
    leaves [lastBroadcastMs] alone and sends nothing, or comes at least
    the minimum interval after it. *)
Lemma broadcast_step_cases now clients s last :
  0 <= last <= now -> now < 4294967296 ->
  (snd (broadcast_step now clients (mkBoard s last)) = false /\
   lastBroadcastMs (fst (broadcast_step now clients (mkBoard s last))) = last)
  \/
  (BROADCAST_MIN_INTERVAL_MS <= now - last /\
   lastBroadcastMs (fst (broadcast_step now clients (mkBoard s last))) = now).
Proof.
  intros Hl Hn. unfold broadcast_step. cbn [sys lastBroadcastMs].
  assert (Hw : wrap32 (now - last) = now - last)
    by (unfold wrap32; apply Z.mod_small; lia).
  rewrite Hw, Z.geb_leb.
  destruct (countsChanged s); [| left; split; reflexivity].
  destruct (Z.leb_spec BROADCAST_MIN_INTERVAL_MS (now - last));
    [right | left]; split; (reflexivity || assumption).
Qed.

Lemma no_broadcast_before_interval t1 passes : forall last tmin j sj tj cj,
  0 <= t1 ->
  nondecreasing_from tmin (map (fun p => snd (fst p)) passes) = true ->
  forallb (fun t => t <? 4294967296) (map (fun p => snd (fst p)) passes)
  = true ->
  (t1 + BROADCAST_MIN_INTERVAL_MS <= tmin /\ 0 <= last <= tmin)
  \/ (last = t1 /\ t1 <= tmin) ->
  broadcasts last passes !! j = Some true ->
  passes !! j = Some (sj, tj, cj) ->
  BROADCAST_MIN_INTERVAL_MS <= tj - t1.
Proof.
  induction passes as [| [[s t] c] rest IH];
    intros last tmin j sj tj cj Ht1 Hnd Hbd Hinv Hj Hp.
  - destruct j; discriminate.
  - simpl map in Hnd, Hbd.
    apply nondecreasing_from_cons in Hnd as [Hle Hnd].
    simpl in Hbd. apply andb_prop in Hbd as [Hlt Hbd].
    apply Z.ltb_lt in Hlt. simpl in Hle, Hlt.
    assert (Hlast : 0 <= last <= t) by (destruct Hinv as [[_ ?] | [-> ?]]; lia).
    destruct (broadcast_step_cases t c s last Hlast Hlt)
      as [[Hno Hkeep] | [Hgap Hnew]].
    + destruct j as [| j]; simpl in Hj, Hp.
      * rewrite Hno in Hj. discriminate.
      * rewrite Hkeep in Hj.
        apply (IH last t j sj tj cj Ht1 Hnd Hbd); try assumption.
        destruct Hinv as [[? ?] | [-> ?]]; [left | right]; lia.
    + destruct j as [| j]; simpl in Hj, Hp.
      * injection Hp as -> -> ->.
        destruct Hinv as [[? ?] | [-> ?]]; lia.
      * rewrite Hnew in Hj.
        apply (IH t t j sj tj cj Ht1 Hnd Hbd); try assumption.
        left. destruct Hinv as [[? ?] | [-> ?]]; lia.
Qed.

Lemma broadcasts_apart_from passes : forall last tmin i j si ti ci sj tj cj,
  0 <= last <= tmin ->
  nondecreasing_from tmin (map (fun p => snd (fst p)) passes) = true ->
  forallb (fun t => t <? 4294967296) (map (fun p => snd (fst p)) passes)
  = true ->
  (i < j)%nat ->
  passes !! i = Some (si, ti, ci) -> passes !! j = Some (sj, tj, cj) ->
  broadcasts last passes !! i = Some true ->
  broadcasts last passes !! j = Some true ->
  BROADCAST_MIN_INTERVAL_MS <= tj - ti.
Proof.
  induction passes as [| [[s t] c] rest IH];
    intros last tmin i j si ti ci sj tj cj Hlast Hnd Hbd Hij Hi Hj Hbi Hbj.
  - destruct i; discriminate.
  - simpl map in Hnd, Hbd.
    apply nondecreasing_from_cons in Hnd as [Hle Hnd].
    pose proof Hbd as Hbd0.
    simpl in Hbd. apply andb_prop in Hbd as [Hlt Hbd].
    apply Z.ltb_lt in Hlt. simpl in Hle, Hlt.
    destruct j as [| j]; [lia |]. simpl in Hj, Hbj.
    destruct (broadcast_step_cases t c s last ltac:(lia) Hlt)
      as [[Hno Hkeep] | [Hgap Hnew]].
    + destruct i as [| i]; simpl in Hi, Hbi.
      * rewrite Hno in Hbi. discriminate.
      * rewrite Hkeep in Hbi, Hbj.
        apply (IH last t i j si ti ci sj tj cj); try assumption; lia.
    + destruct i as [| i]; simpl in Hi, Hbi.
      * injection Hi as -> -> ->. rewrite Hnew in Hbj.
        apply (no_broadcast_before_interval ti rest ti ti j sj tj cj);
          try assumption; lia.
      * rewrite Hnew in Hbi, Hbj.
        apply (IH t t i j si ti ci sj tj cj); try assumption; lia.
Qed.

(** X16: the loop sends at most one update per 50 ms.  Over successive
    passes through the broadcast part of [loop], with 32-bit timestamps
    that never decrease and start at or after [lastBroadcastMs], two
    passes that call [broadcastTXT] are at least
    [BROADCAST_MIN_INTERVAL_MS] apart, whatever the counters and the
    change flag were on each pass. *)
Theorem loop_broadcasts_are_spaced last passes i j si ti ci sj tj cj :
  0 <= last ->
  nondecreasing_from last (map (fun p => snd (fst p)) passes) = true ->
  forallb (fun t => t <? 4294967296) (map (fun p => snd (fst p)) passes)
  = true ->
  (i < j)%nat ->
  passes !! i = Some (si, ti, ci) -> passes !! j = Some (sj, tj, cj) ->
  broadcasts last passes !! i = Some true ->
  broadcasts last passes !! j = Some true ->
  BROADCAST_MIN_INTERVAL_MS <= tj - ti.
Proof.
  intros Hlast. apply broadcasts_apart_from. lia.
Qed.

Lemma loop_broadcasts_are_spaced_witness :
  broadcasts 0
    [(mkSystem [] 0 true, 60, true); (mkSystem [] 1 true, 100, true);
     (mkSystem [] 1 false, 120, true); (mkSystem [] 2 true, 130, true)]
  = [true; false; false; true] /\
  BROADCAST_MIN_INTERVAL_MS <= 130 - 60.
Proof.
  split; [reflexivity |].
  exact (loop_broadcasts_are_spaced 0
           [(mkSystem [] 0 true, 60, true); (mkSystem [] 1 true, 100, true);
            (mkSystem [] 1 false, 120, true); (mkSystem [] 2 true, 130, true)]
           0%nat 3%nat (mkSystem [] 0 true) 60 true (mkSystem [] 2 true) 130 true
           ltac:(lia) eq_refl eq_refl ltac:(lia)
           eq_refl eq_refl eq_refl eq_refl).
Defined.

(** ** Streaming the page *)

Lemma handleRoot_stream_spec (page : list Byte.byte) len :
  0 <= len <= 65280 -> (Z.to_nat len <= length page)%nat ->
  forall fuel i,
  0 <= i -> Z.max 0 (len - i) <= 256 * (Z.of_nat fuel - 1) ->
  exists chunks,
    handleRoot_stream fuel page len i = Some chunks /\
    concat chunks = drop (Z.to_nat i) (take (Z.to_nat len) page) /\
    Forall (fun c => (0 < length c <= 256)%nat) chunks.
Proof.
  intros Hlen Hpage.
  induction fuel as [| fuel IH]; intros i Hi Hfuel; [lia |].
  cbn [handleRoot_stream].
  destruct (Z.ltb_spec i len) as [Hlt | Hge].
  - destruct (IH (wrap16 (i + 256))) as (chunks & -> & Hcat & Hall).
    { unfold wrap16. apply Z.mod_pos_bound. lia. }
    { rewrite wrap16_small by lia. lia. }
    rewrite (wrap16_small (i + 256)) in Hcat by lia.
    rewrite (wrap16_small (len - i)) by lia.
    eexists. split; [reflexivity |].
    assert (Hchunk : take (Z.to_nat (Z.min 256 (len - i)))
                       (drop (Z.to_nat i) page)
                     = take 256 (drop (Z.to_nat i) (take (Z.to_nat len) page))).
    { rewrite skipn_firstn_comm, firstn_firstn. f_equal. lia. }
    rewrite Hchunk. split.
    + cbn [concat]. rewrite Hcat.
      replace (Z.to_nat (i + 256)) with (Z.to_nat i + 256)%nat by lia.
      rewrite <- drop_drop. apply take_drop.
    + constructor; [| exact Hall].
      rewrite length_take, length_drop, length_take. lia.
  - exists []. split; [reflexivity |]. split; [| constructor].
    simpl. symmetry. apply drop_ge. rewrite length_take. lia.
Qed.

(** X17: the page is streamed whole and in order.  When the length the
    loop works with ([strlen] cut to 16 bits) is at most 65280, the loop
    of [handleRoot] ends, and the chunks it prints, each of 1 to 256
    characters, put end to end are the first [len] characters of the
    page: the whole page when it is shorter than 65536 characters. *)
Theorem handleRoot_streams_page (page : list Byte.byte) fuel :
  let len := wrap16 (Z.of_nat (length page)) in
  len <= 65280 -> len / 256 + 2 <= Z.of_nat fuel ->
  exists chunks,
    handleRoot_body fuel page = Some chunks /\
    concat chunks = take (Z.to_nat len) page /\
    (Z.of_nat (length page) < 65536 -> concat chunks = page) /\
    Forall (fun c => (0 < length c <= 256)%nat) chunks.
Proof.
  intros len Hlen Hfuel.
  assert (Hbound : 0 <= len <= Z.of_nat (length page)).
  { subst len. unfold wrap16. split.
    - apply Z.mod_pos_bound. lia.
    - apply Z.mod_le; lia. }
  destruct (handleRoot_stream_spec page len ltac:(lia) ltac:(lia) fuel 0)
    as (chunks & Hrun & Hcat & Hall); [lia | |].
  { pose proof (Z.mul_div_le len 256 ltac:(lia)).
    pose proof (Z.mod_pos_bound len 256 ltac:(lia)).
    pose proof (Z.div_mod len 256 ltac:(lia)). lia. }
  exists chunks. split; [exact Hrun |].
  simpl in Hcat. split; [exact Hcat |]. split; [| exact Hall].
  intros Hshort. rewrite Hcat. apply take_ge.
  subst len. rewrite wrap16_small by lia. lia.
Qed.

Lemma handleRoot_streams_page_witness :
  exists chunks,
    handleRoot_body 4 (replicate 300 Byte.x41 ++ replicate 300 Byte.x42)
    = Some chunks /\
    concat chunks = replicate 300 Byte.x41 ++ replicate 300 Byte.x42.
Proof.
  destruct (handleRoot_streams_page
              (replicate 300 Byte.x41 ++ replicate 300 Byte.x42) 4
              ltac:(vm_compute; discriminate) ltac:(vm_compute; discriminate))
    as (chunks & Hrun & _ & Hpage & _).
  exists chunks. split; [exact Hrun |].
  exact (Hpage ltac:(vm_compute; reflexivity)).
Defined.

Lemma handleRoot_stream_loops (page : list Byte.byte) len :
  65280 < len ->
  forall fuel k, 0 <= k <= 255 ->
  handleRoot_stream fuel page len (256 * k) = None.
Proof.
  intros Hlen. induction fuel as [| fuel IH]; intros k Hk; [reflexivity |].
  cbn [handleRoot_stream].
  destruct (Z.ltb_spec (256 * k) len) as [_ | Hge]; [| lia].
  destruct (Z.eq_dec k 255) as [-> | Hne].
  - change (wrap16 (256 * 255 + 256)) with (256 * 0).
    rewrite IH by lia. reflexivity.
  - replace (wrap16 (256 * k + 256)) with (256 * (k + 1))
      by (rewrite wrap16_small; lia).
    rewrite IH by lia. reflexivity.
Qed.

(** X18: the 16-bit loop index can wrap around.  When the length the
    loop works with is above 65280, the index goes from 65280 back to 0
    and stays below the length for ever: the loop of [handleRoot] never
    ends, whatever the fuel. *)
Theorem handleRoot_never_ends_above_65280 (page : list Byte.byte) fuel :
  65280 < wrap16 (Z.of_nat (length page)) ->
  handleRoot_body fuel page = None.
Proof.
  intros Hlen. unfold handleRoot_body.
  apply (handleRoot_stream_loops page _ Hlen fuel 0). lia.
Qed.

Lemma handleRoot_never_ends_above_65280_witness :
  handleRoot_body 1000 (replicate (Z.to_nat 65281) Byte.x41) = None.
Proof.
  exact (handleRoot_never_ends_above_65280 (replicate (Z.to_nat 65281) Byte.x41) 1000
           ltac:(vm_compute; reflexivity)).
Defined.

(** ** The multiplexer *)

(** X19: the multiplexer is told to open one channel.  For a channel
    from 0 to 7 [muxSelect] writes to the multiplexer's address one
    byte in which the bit of that channel, and no other bit, is set, so
    two different channels never get the same byte; for a channel above
    7 it writes nothing. *)
Theorem muxSelect_one_hot channel :
  0 <= channel ->
  (7 < channel -> muxSelect channel = None) /\
  (channel <= 7 ->
   exists b,
     muxSelect channel = Some (TCA9548A_ADDR, b) /\ 0 < b < 256 /\
     forall k, Z.testbit b k = (k =? channel)).
Proof.
  intros Hc. unfold muxSelect. rewrite Z.gtb_ltb. split; intros H.
  - destruct (Z.ltb_spec 7 channel); [reflexivity | lia].
  - destruct (Z.ltb_spec 7 channel); [lia |].
    assert (Hb : wrap8 (Z.shiftl 1 channel) = 2 ^ channel).
    { rewrite Z.shiftl_1_l. unfold wrap8. apply Z.mod_small.
      split; [apply Z.pow_nonneg; lia |].
      apply (Z.lt_le_trans _ (2 ^ 8)); [| reflexivity].
      apply Z.pow_lt_mono_r; lia. }
    rewrite Hb. eexists. split; [reflexivity |]. split.
    + split; [apply Z.pow_pos_nonneg; lia |].
      apply (Z.lt_le_trans _ (2 ^ 8)); [| reflexivity].
      apply Z.pow_lt_mono_r; lia.
    + intros k. rewrite Z.pow2_bits_eqb by lia. apply Z.eqb_sym.
Qed.

Lemma muxSelect_one_hot_witness :
  exists b, muxSelect 3 = Some (TCA9548A_ADDR, b) /\ 0 < b < 256 /\
    forall k, Z.testbit b k = (k =? 3).
Proof.
  exact (proj2 (muxSelect_one_hot 3 ltac:(lia)) ltac:(lia)).
Defined.

(** ** Calibration and health at run time *)

Lemma calibration_of_processed lane d now lo :
  calibration_of (snd (processLaneReading lane d now lo)) = calibration_of lane.
Proof.
  destruct (processLaneReading_frame lane d now lo) as (Hb & Hth & Hcl & Hok).
  unfold calibration_of. rewrite Hb, Hth, Hcl, Hok. reflexivity.
Qed.

Lemma step_keeps_calibration e s :
  System_wf s -> Event_in_bounds e = true ->
  exists s',
    step e s = Some s' /\ System_wf s' /\
    map calibration_of (lanes s') = map calibration_of (lanes s).
Proof.
  intros Hwf Hin. destruct e as [ch d tmo now |]; simpl in *.
  - apply Nat.ltb_lt in Hin.
    destruct (lookup_lt_is_Some_2 (lanes s) ch ltac:(rewrite Hwf; exact Hin))
      as [lane Hl].
    destruct (updateLane_spec ch d tmo now s lane Hl)
      as (s' & Hrun & Hlen & Hother & Hsame & _).
    exists s'. split; [exact Hrun |].
    split; [unfold System_wf in *; congruence |].
    apply list_eq. intros k. rewrite !list_lookup_fmap.
    destruct (decide (k = ch)) as [-> | Hne].
    + rewrite Hsame, Hl. simpl. f_equal.
      destruct tmo; [reflexivity | apply calibration_of_processed].
    + rewrite (Hother k Hne). reflexivity.
  - unfold onWsMessage_reset.
    destruct (resetLanes_lookup (lanes s) NUM_LANES (totalCount s))
      as (ls' & -> & Hlen & Hk); [rewrite Hwf; lia |].
    eexists. split; [reflexivity |]. cbn [lanes].
    split; [unfold System_wf in *; simpl; congruence |].
    apply list_eq. intros k. rewrite !list_lookup_fmap, Hk.
    destruct (decide (k < NUM_LANES)%nat); [| reflexivity].
    destruct (lanes s !! k); reflexivity.
Qed.

(** X20: nothing at run time touches calibration or health.  Over any
    sequence of polls of the four lanes and reset commands, every lane
    keeps its baseline, its two thresholds and its health flag: a reset
    never decalibrates, and a lane neither becomes healthy nor stops
    being healthy by being polled, read timeouts included. *)
Theorem run_keeps_calibration evs s :
  System_wf s -> forallb Event_in_bounds evs = true ->
  exists s',
    run evs s = Some s' /\ System_wf s' /\
    map calibration_of (lanes s') = map calibration_of (lanes s).
Proof.
  revert s. induction evs as [| e evs IH]; intros s Hwf Hin; simpl.
  - exists s. auto.
  - simpl in Hin. apply andb_prop in Hin as [He Hin].
    destruct (step_keeps_calibration e s Hwf He) as (s1 & -> & Hwf1 & Hc1).
    destruct (IH s1 Hwf1 Hin) as (s' & Hrun & Hwf' & Hc').
    exists s'. split; [exact Hrun |]. split; [exact Hwf' | congruence].
Qed.

Lemma run_keeps_calibration_witness :
  exists s',
    run (ball_pass 0 10 ++ [Poll 1 0 true 95; ResetCommand] ++ ball_pass 3 190)
      (mkSystem [calibrated_lane; Lane_default;
                 mkLane 800 720 750 4 LOCKOUT 7 true 790; calibrated_lane]
         4 false) = Some s' /\
    map calibration_of (lanes s')
    = [(500, 420, 450, true); (0, 0, 0, false);
       (800, 720, 750, true); (500, 420, 450, true)].
Proof.
  destruct (run_keeps_calibration
              (ball_pass 0 10 ++ [Poll 1 0 true 95; ResetCommand]
               ++ ball_pass 3 190)
              (mkSystem [calibrated_lane; Lane_default;
                         mkLane 800 720 750 4 LOCKOUT 7 true 790;
                         calibrated_lane] 4 false)
              eq_refl eq_refl) as (s' & Hrun & _ & Hc).
  exists s'. exact (conj Hrun Hc).
Defined.

(** ** From a count to its announcement *)


